(** * Comment moderation and threading engine

    A shallow embedding of the comment engine of the Django backend
    (apps/comments and comments) together with the properties stated for it.

    Conventions of the embedding:
    - Python [str] values are modelled as [string] over 8-bit characters;
      case mapping and [isupper] are the ASCII ones.
    - [timezone.now()] is an explicit argument [now : Z], in microseconds
      for apps/comments and in seconds, the unit of cache timeouts, for
      comments.
    - database tables are explicit state; every view, serializer method,
      signal handler and task is a function on that state. *)

From Stdlib Require Import ZArith QArith Lia Lqa Bool.
From Stdlib Require Import Strings.String Strings.Ascii Numbers.DecimalString.
From Stdlib Require Numbers.DecimalNat Numbers.DecimalFacts.
From stdpp Require Import gmap strings list.

Local Open Scope string_scope.

(** ** Python string primitives *)

Module Py.

Definition is_ascii_upper (c : ascii) : bool :=
  let n := nat_of_ascii c in (65 <=? n)%nat && (n <=? 90)%nat.

Definition is_ascii_lower (c : ascii) : bool :=
  let n := nat_of_ascii c in (97 <=? n)%nat && (n <=? 122)%nat.

Definition is_ascii_digit (c : ascii) : bool :=
  let n := nat_of_ascii c in (48 <=? n)%nat && (n <=? 57)%nat.

(** the character classes [[a-zA-Z]] and [[a-zA-Z0-9]] *)
Definition is_alpha (c : ascii) : bool := is_ascii_upper c || is_ascii_lower c.
Definition is_alnum (c : ascii) : bool := is_alpha c || is_ascii_digit c.

(** [c.isupper()] on one character *)
Definition isupper (c : ascii) : bool := is_ascii_upper c.

Definition lower_char (c : ascii) : ascii :=
  if is_ascii_upper c then ascii_of_nat (nat_of_ascii c + 32) else c.

(** [s.lower()] *)
Fixpoint lower (s : string) : string :=
  match s with
  | EmptyString => EmptyString
  | String c r => String (lower_char c) (lower r)
  end.

(** [len(s)] *)
Definition len (s : string) : nat := String.length s.

Fixpoint drop (n : nat) (s : string) : string :=
  match n, s with
  | O, _ => s
  | S k, EmptyString => EmptyString
  | S k, String _ r => drop k r
  end.

Fixpoint take (n : nat) (s : string) : string :=
  match n, s with
  | O, _ => EmptyString
  | S k, EmptyString => EmptyString
  | S k, String c r => String c (take k r)
  end.

(** first position, counted from [i], at which [sub] starts in [s] *)
Fixpoint find_at (sub s : string) (i : nat) : option nat :=
  if String.prefix sub s then Some i
  else match s with
       | EmptyString => None
       | String _ r => find_at sub r (S i)
       end.

(** a slice or search bound as Python normalises it: a negative index
    counts from the end, and the result is clamped to [0 .. len] *)
Definition norm_index (n : nat) (i : Z) : nat :=
  let j := (if i <? 0 then i + Z.of_nat n else i)%Z in
  Z.to_nat (Z.min (Z.max j 0) (Z.of_nat n)).

(** [s.find(sub, start)]: the lowest index, or -1 *)
Definition find (s sub : string) (start : Z) : Z :=
  let j := (if start <? 0 then start + Z.of_nat (len s) else start)%Z in
  if (Z.of_nat (len s) <? j)%Z then (-1)%Z
  else
    let st := norm_index (len s) start in
    match find_at sub (drop st s) st with
    | Some i => Z.of_nat i
    | None => (-1)%Z
    end.

(** [s[a:b]] *)
Definition slice (s : string) (a b : Z) : string :=
  let i := norm_index (len s) a in
  let j := norm_index (len s) b in
  take (j - i) (drop i s).

(** [s.endswith(suffix)] *)
Definition endswith (s suffix : string) : bool :=
  (len suffix <=? len s)%nat && String.eqb (drop (len s - len suffix) s) suffix.

(** [sub in s] *)
Definition contains (sub s : string) : bool :=
  match find_at sub s 0 with Some _ => true | None => false end.

(** [s.count(sub)] for a non-empty [sub]: occurrences that do not overlap,
    scanned from the left.  [skip] is the number of characters still
    covered by the occurrence found last. *)
Fixpoint count_from (skip : nat) (sub s : string) : nat :=
  match s with
  | EmptyString => 0
  | String _ r =>
      match skip with
      | S k => count_from k sub r
      | O => if String.prefix sub s
             then S (count_from (len sub - 1) sub r)
             else count_from 0 sub r
      end
  end.

Definition count (s sub : string) : nat := count_from 0 sub s.

(** [str(n)] for a natural number *)
Definition str (n : nat) : string := NilEmpty.string_of_uint (Nat.to_uint n).

(** every character of [s] satisfies [p] *)
Fixpoint all_chars (p : ascii -> bool) (s : string) : bool :=
  match s with
  | EmptyString => true
  | String c r => p c && all_chars p r
  end.

(** [len([c for c in s if p(c)])] *)
Fixpoint count_chars (p : ascii -> bool) (s : string) : nat :=
  match s with
  | EmptyString => 0
  | String c r => if p c then S (count_chars p r) else count_chars p r
  end.

(** Python truth value of a string *)
Definition truthy (s : string) : bool := negb (String.eqb s "").

End Py.

Example find_ex1 : Py.find "ab<i>c" "<i" 0 = 2%Z.
Proof. reflexivity. Qed.
Example find_ex2 : Py.find "ab<i>c" ">" 2 = 4%Z.
Proof. reflexivity. Qed.
Example find_ex3 : Py.find "ab<I>" ">" (-1) = 4%Z.
Proof. reflexivity. Qed.
Example find_ex4 : Py.find "ab<I>c" ">" (-1) = (-1)%Z.
Proof. reflexivity. Qed.
Example slice_ex1 : Py.slice "ab<i/>c" 2 (5 + 1) = "<i/>".
Proof. reflexivity. Qed.
Example slice_ex2 : Py.slice "ab<I>c" (-1) 0 = "".
Proof. reflexivity. Qed.
Example count_ex1 : Py.count "http://a https://b xhttp" "http" = 3%nat.
Proof. reflexivity. Qed.
Example count_ex2 : Py.count "aaaa" "aa" = 2%nat.
Proof. reflexivity. Qed.
Example lower_ex : Py.lower "ViaGRA 1" = "viagra 1".
Proof. reflexivity. Qed.
Example str_ex : Py.str 17 = "17".
Proof. reflexivity. Qed.

(** ** TextSanitizer: [Comment.sanitize_text] and [Comment.is_valid_xhtml]
    (apps/comments/models.py) *)

Module Sanitizer.

(** *** The tag scan of [is_valid_xhtml]

    [re.findall(tag_pattern, text)], where [tag_pattern] reads: a [<],
    an optional [/] (group 1), a letter [a-zA-Z] followed by any number
    of [a-zA-Z0-9] (group 2), any number of characters other than [>],
    and a [>].  The result lists the two groups of every match, leftmost
    first, matches not overlapping. *)

(** the longest run of [[a-zA-Z0-9]] at the head of [s], and what follows *)
Fixpoint span_alnum (s : string) : string * string :=
  match s with
  | String c r =>
      if Py.is_alnum c
      then let '(nm, rest) := span_alnum r in (String c nm, rest)
      else (EmptyString, s)
  | EmptyString => (EmptyString, EmptyString)
  end.

(** [[^>]*>]: the number of characters up to and including the first
    [>], when there is one *)
Fixpoint upto_gt (s : string) : option nat :=
  match s with
  | EmptyString => None
  | String c r =>
      if Ascii.eqb c ">" then Some 1%nat
      else match upto_gt r with
           | Some n => Some (S n)
           | None => None
           end
  end.

(** a match of the pattern at the head of [s]: the groups and the length
    of the match.  Both quantified parts are greedy, and giving characters
    back never turns a failure into a match, nor changes the groups. *)
Definition match_tag (s : string) : option ((string * string) * nat) :=
  match s with
  | String lt r =>
      if Ascii.eqb lt "<" then
        let '(is_closing, r1) :=
          match r with
          | String sl r' => if Ascii.eqb sl "/" then ("/", r') else ("", r)
          | EmptyString => ("", r)
          end in
        match r1 with
        | String c r2 =>
            if Py.is_alpha c then
              let '(nm, r3) := span_alnum r2 in
              match upto_gt r3 with
              | Some n =>
                  Some ((is_closing, String c nm),
                        (1 + Py.len is_closing + 1 + Py.len nm + n)%nat)
              | None => None
              end
            else None
        | EmptyString => None
        end
      else None
  | EmptyString => None
  end.

(** [skip] characters still belong to the match found last *)
Fixpoint findall_from (skip : nat) (s : string) : list (string * string) :=
  match s with
  | EmptyString => []
  | String _ r =>
      match skip with
      | S k => findall_from k r
      | O =>
          match match_tag s with
          | Some (groups, n) => groups :: findall_from (n - 1) r
          | None => findall_from 0 r
          end
      end
  end.

Definition findall_tags (text : string) : list (string * string) :=
  findall_from 0 text.

(** *** [is_valid_xhtml] *)

(** the test that guards the push of an opening tag:
    [text[text.find(f'<{tag_name}'):text.find('>', text.find(f'<{tag_name}')) + 1].endswith('/>')].
    It reads the first place of the text where [<tag_name] occurs. *)
Definition looks_self_closing (text tag_name : string) : bool :=
  let start := Py.find text ("<" +:+ tag_name) 0 in
  Py.endswith (Py.slice text start (Py.find text ">" start + 1)) "/>".

(** the loop over the tags; the head of [tag_stack] is the top of the
    Python list, [tag_stack[-1]] *)
Fixpoint scan_tags (text : string) (tags : list (string * string))
                   (tag_stack : list string) : bool :=
  match tags with
  | [] => (length tag_stack =? 0)%nat
  | (is_closing, tag_name) :: rest =>
      let tag_name := Py.lower tag_name in
      if Py.truthy is_closing then
        match tag_stack with
        | [] => false
        | top :: below =>
            if negb (String.eqb top tag_name) then false
            else scan_tags text rest below
        end
      else if negb (looks_self_closing text tag_name)
           then scan_tags text rest (tag_name :: tag_stack)
           else scan_tags text rest tag_stack
  end.

(** The body stands in a [try] that answers [False] on any exception; the
    string operations of the body raise none. *)
Definition is_valid_xhtml (text : string) : bool :=
  scan_tags text (findall_tags text) [].

(** *** [sanitize_text] *)

Definition allowed_tags : list string := ["i"; "strong"; "code"; "a"].
Definition allowed_attributes : list (string * list string) :=
  [("a", ["href"; "title"])].

Section WithLibraries.

(** [bleach.clean(text, tags=, attributes=, strip=)] and django's
    [strip_tags] are third-party functions; the sanitizer is
    embedded over them. *)
Variable bleach_clean :
  string -> list string -> list (string * list string) -> bool -> string.
Variable strip_tags : string -> string.

Definition sanitize_text (text : string) : string :=
  let cleaned := bleach_clean text allowed_tags allowed_attributes true in
  if negb (is_valid_xhtml cleaned) then strip_tags cleaned else cleaned.

End WithLibraries.

(** *** Stand-ins for the two library functions

    [remove_lt] deletes every [<]; [clean_model] keeps a text whose tags
    (as the scan above reads them) are all allowed and deletes every [<]
    otherwise.  They instantiate the library parameters in the examples. *)

Fixpoint remove_lt (s : string) : string :=
  match s with
  | EmptyString => EmptyString
  | String c r => if Ascii.eqb c "<" then remove_lt r else String c (remove_lt r)
  end.

Definition tag_allowed (tags : list string) (g : string * string) : bool :=
  existsb (String.eqb (Py.lower (snd g))) tags.

Definition clean_model (text : string) (tags : list string)
    (attributes : list (string * list string)) (strip : bool) : string :=
  if forallb (tag_allowed tags) (findall_tags text) then text else remove_lt text.

(** *** Properties of the scan *)

Lemma match_tag_not_lt c r : c <> "<"%char -> match_tag (String c r) = None.
Proof.
  intros Hc. unfold match_tag.
  destruct (Ascii.eqb c "<") eqn:E; [|reflexivity].
  apply Ascii.eqb_eq in E. contradiction.
Qed.

Lemma findall_remove_lt s : forall k, findall_from k (remove_lt s) = [].
Proof.
  induction s as [|c r IH]; intros k; cbn [remove_lt]; [reflexivity|].
  destruct (Ascii.eqb c "<") eqn:E; [apply IH|].
  apply Ascii.eqb_neq in E. cbn [findall_from].
  destruct k as [|k]; [|apply IH].
  rewrite (match_tag_not_lt c (remove_lt r) E). apply IH.
Qed.

Lemma no_tags_valid text : findall_tags text = [] -> is_valid_xhtml text = true.
Proof. unfold is_valid_xhtml. intros ->. reflexivity. Qed.

Lemma remove_lt_no_tags s : findall_tags (remove_lt s) = [].
Proof. apply findall_remove_lt. Qed.

Lemma clean_model_tags_allowed text tags attrs strip :
  forallb (tag_allowed tags) (findall_tags (clean_model text tags attrs strip)) = true.
Proof.
  unfold clean_model.
  destruct (forallb (tag_allowed tags) (findall_tags text)) eqn:E; [exact E|].
  rewrite remove_lt_no_tags. reflexivity.
Qed.




(** *** The check as the specification words it

    "Every opening tag has a matching, properly nested closing tag": the
    stack discipline alone, for a text in which no tag is self-closing. *)

Fixpoint balanced (tags : list (string * string)) (tag_stack : list string) : bool :=
  match tags with
  | [] => match tag_stack with [] => true | _ :: _ => false end
  | (is_closing, tag_name) :: rest =>
      if Py.truthy is_closing then
        match tag_stack with
        | [] => false
        | top :: below =>
            if String.eqb top (Py.lower tag_name) then balanced rest below else false
        end
      else balanced rest (Py.lower tag_name :: tag_stack)
  end.

Lemma find_at_some_any sub s i j :
  is_Some (Py.find_at sub s i) -> is_Some (Py.find_at sub s j).
Proof.
  revert i j. induction s as [|c r IH]; intros i j; cbn [Py.find_at].
  - destruct (String.prefix sub ""); [eauto|]. intros [x Hx]. discriminate.
  - destruct (String.prefix sub (String c r)); [eauto|]. apply IH.
Qed.

Lemma contains_here sub s : String.prefix sub s = true -> Py.contains sub s = true.
Proof.
  intros H. unfold Py.contains. destruct s; cbn [Py.find_at]; rewrite H; reflexivity.
Qed.

Lemma contains_later sub c r : Py.contains sub r = true -> Py.contains sub (String c r) = true.
Proof.
  unfold Py.contains. intros H. cbn [Py.find_at].
  destruct (String.prefix sub (String c r)); [reflexivity|].
  destruct (Py.find_at sub r 0) as [x|] eqn:E; [|discriminate].
  destruct (find_at_some_any sub r 0 1) as [y ->]; [rewrite E; eauto|reflexivity].
Qed.

Lemma contains_drop sub n :
  forall s, Py.contains sub (Py.drop n s) = true -> Py.contains sub s = true.
Proof.
  induction n as [|n IH]; intros [|c r] H; cbn [Py.drop] in H; try exact H.
  apply contains_later, IH, H.
Qed.

Lemma prefix_take sub n :
  forall s, String.prefix sub (Py.take n s) = true -> String.prefix sub s = true.
Proof.
  revert n. induction sub as [|a sub IH]; intros n s H; [destruct s; reflexivity|].
  destruct n as [|n]; [destruct s; discriminate H|].
  destruct s as [|b s]; [discriminate H|].
  cbn [Py.take String.prefix] in *.
  destruct (ascii_dec a b); [|discriminate]. apply (IH n), H.
Qed.

Lemma contains_take sub n :
  forall s, Py.contains sub (Py.take n s) = true -> Py.contains sub s = true.
Proof.
  induction n as [|n IH]; intros s H.
  - destruct s; cbn [Py.take] in H.
    + exact H.
    + unfold Py.contains in H. cbn [Py.find_at] in H.
      destruct (String.prefix sub "") eqn:E; [|discriminate].
      apply contains_here. destruct sub; [reflexivity|discriminate E].
  - destruct s as [|c r]; [exact H|]. cbn [Py.take] in H.
    unfold Py.contains in H. cbn [Py.find_at] in H.
    destruct (String.prefix sub (String c (Py.take n r))) eqn:E.
    + apply contains_here. apply (prefix_take sub (S n) (String c r)), E.
    + apply contains_later, IH. unfold Py.contains.
      destruct (Py.find_at sub (Py.take n r) 1) as [x|] eqn:E1; [|discriminate].
      destruct (find_at_some_any sub (Py.take n r) 1 0) as [y ->];
        [rewrite E1; eauto|reflexivity].
Qed.

Lemma prefix_refl s : String.prefix s s = true.
Proof.
  induction s as [|c r IH]; cbn; [reflexivity|].
  destruct (ascii_dec c c); [exact IH|contradiction].
Qed.

Lemma endswith_contains s suffix :
  Py.endswith s suffix = true -> Py.contains suffix s = true.
Proof.
  unfold Py.endswith. intros H. apply andb_prop in H as [_ H].
  apply String.eqb_eq in H. apply (contains_drop suffix (Py.len s - Py.len suffix)).
  rewrite H. apply contains_here, prefix_refl.
Qed.

(** without "/>" in the text the guard of the push never fires *)
Lemma looks_self_closing_needs_slash_gt text tag_name :
  Py.contains "/>" text = false -> looks_self_closing text tag_name = false.
Proof.
  intros Hno. unfold looks_self_closing, Py.slice.
  destruct (Py.endswith _ "/>") eqn:E; [|reflexivity].
  apply endswith_contains, contains_take, contains_drop in E. congruence.
Qed.

Lemma scan_tags_balanced text :
  Py.contains "/>" text = false ->
  forall tags tag_stack, scan_tags text tags tag_stack = balanced tags tag_stack.
Proof.
  intros Hno. induction tags as [|[is_closing tag_name] rest IH]; intros st.
  - destruct st; reflexivity.
  - cbn [scan_tags balanced]. destruct (Py.truthy is_closing).
    + destruct st as [|top below]; [reflexivity|].
      destruct (String.eqb top (Py.lower tag_name)); [apply IH|reflexivity].
    + rewrite (looks_self_closing_needs_slash_gt text _ Hno). apply IH.
Qed.

(** on a text without "/>", [is_valid_xhtml] is the check of the
    specification *)
Lemma is_valid_xhtml_balanced text :
  Py.contains "/>" text = false ->
  is_valid_xhtml text = balanced (findall_tags text) [].
Proof. intros Hno. apply scan_tags_balanced, Hno. Qed.

(** *** The sanitizer over well-behaved library functions *)

Section Contracts.

Variable bleach_clean :
  string -> list string -> list (string * list string) -> bool -> string.
Variable strip_tags : string -> string.

Let clean (text : string) : string :=
  bleach_clean text allowed_tags allowed_attributes true.
Let sanitize : string -> string := sanitize_text bleach_clean strip_tags.

Lemma sanitize_valid_branch x :
  is_valid_xhtml (clean x) = true -> sanitize x = clean x.
Proof.
  intros H. unfold sanitize, sanitize_text. fold (clean x). rewrite H. reflexivity.
Qed.

Lemma sanitize_fallback_branch x :
  is_valid_xhtml (clean x) = false -> sanitize x = strip_tags (clean x).
Proof.
  intros H. unfold sanitize, sanitize_text. fold (clean x). rewrite H. reflexivity.
Qed.


(** What the guard gives, in terms of the check of the code.  When
    [bleach.clean] emits allowed tags only and [strip_tags] leaves no tag
    in a cleaned text that failed, then for every text: every tag the scan
    finds in the output of the sanitizer is on the allow-list
    [i, strong, code, a]; when the cleaned text fails [is_valid_xhtml],
    the output has no tag at all; and the output always passes
    [is_valid_xhtml].  An output without "/>" in it is balanced.  What
    [is_valid_xhtml] lets through is another matter, see below. *)
Theorem sanitize_text_allow_listed :
  (forall x g, In g (findall_tags (clean x)) -> tag_allowed allowed_tags g = true) ->
  (forall x, is_valid_xhtml (clean x) = false ->
             findall_tags (strip_tags (clean x)) = []) ->
  forall x,
    (forall g, In g (findall_tags (sanitize x)) ->
               In (Py.lower (snd g)) ["i"; "strong"; "code"; "a"])
    /\ (is_valid_xhtml (clean x) = false -> findall_tags (sanitize x) = [])
    /\ is_valid_xhtml (sanitize x) = true
    /\ (Py.contains "/>" (sanitize x) = false ->
        balanced (findall_tags (sanitize x)) [] = true).
Proof.
  intros Hallow Hplain x.
  assert (Hpass : is_valid_xhtml (sanitize x) = true).
  { destruct (is_valid_xhtml (clean x)) eqn:Hv.
    - rewrite (sanitize_valid_branch x Hv). exact Hv.
    - rewrite (sanitize_fallback_branch x Hv). apply no_tags_valid, Hplain, Hv. }
  split; [|split; [|split]].
  - destruct (is_valid_xhtml (clean x)) eqn:Hv.
    + rewrite (sanitize_valid_branch x Hv).
      intros g Hg. specialize (Hallow x g Hg).
      unfold tag_allowed in Hallow. apply existsb_exists in Hallow.
      destruct Hallow as [t [Ht Heq]]. apply String.eqb_eq in Heq.
      rewrite Heq. exact Ht.
    + rewrite (sanitize_fallback_branch x Hv), (Hplain x Hv). intros g [].
  - intros Hv. rewrite (sanitize_fallback_branch x Hv). apply Hplain, Hv.
  - exact Hpass.
  - intros Hno. rewrite <- (is_valid_xhtml_balanced _ Hno). exact Hpass.
Qed.

End Contracts.


Lemma sanitize_text_allow_listed_witness :
  (forall g, In g (findall_tags (sanitize_text clean_model remove_lt "<i>a</i><a>b")) ->
             In (Py.lower (snd g)) ["i"; "strong"; "code"; "a"])
  /\ (is_valid_xhtml (clean_model "<i>a</i><a>b" allowed_tags allowed_attributes true) = false ->
      findall_tags (sanitize_text clean_model remove_lt "<i>a</i><a>b") = [])
  /\ is_valid_xhtml (sanitize_text clean_model remove_lt "<i>a</i><a>b") = true
  /\ (Py.contains "/>" (sanitize_text clean_model remove_lt "<i>a</i><a>b") = false ->
      balanced (findall_tags (sanitize_text clean_model remove_lt "<i>a</i><a>b")) []
      = true).
Proof.
  apply (sanitize_text_allow_listed clean_model remove_lt).
  - intros x g Hg.
    pose proof (clean_model_tags_allowed x allowed_tags allowed_attributes true) as H.
    rewrite forallb_forall in H. apply H, Hg.
  - intros x _. apply remove_lt_no_tags.
Defined.

(** *** The check with the self-closing tags of the specification

    "Every opening tag has a matching, properly nested closing tag,
    ignoring self-closing tags": the stack discipline of [balanced], with
    an opening tag left out when the tag itself ends in "/>".  The scan is
    the one of [findall_tags], keeping the text of each match. *)

Fixpoint finditer_from (skip : nat) (s : string) : list ((string * string) * string) :=
  match s with
  | EmptyString => []
  | String _ r =>
      match skip with
      | S k => finditer_from k r
      | O =>
          match match_tag s with
          | Some (groups, n) => (groups, Py.take n s) :: finditer_from (n - 1) r
          | None => finditer_from 0 r
          end
      end
  end.

Fixpoint well_nested (tags : list ((string * string) * string))
                     (tag_stack : list string) : bool :=
  match tags with
  | [] => match tag_stack with [] => true | _ :: _ => false end
  | ((is_closing, tag_name), matched) :: rest =>
      if Py.truthy is_closing then
        match tag_stack with
        | [] => false
        | top :: below =>
            if String.eqb top (Py.lower tag_name) then well_nested rest below else false
        end
      else if Py.endswith matched "/>" then well_nested rest tag_stack
      else well_nested rest (Py.lower tag_name :: tag_stack)
  end.

Definition well_formed (text : string) : bool :=
  well_nested (finditer_from 0 text) [].

(** the two scans find the same tags *)
Lemma finditer_findall s : forall skip,
  List.map fst (finditer_from skip s) = findall_from skip s.
Proof.
  induction s as [|c r IH]; intros skip; [reflexivity|].
  cbn [finditer_from findall_from]. destruct skip as [|k]; [|apply IH].
  destruct (match_tag (String c r)) as [[groups n]|]; [|apply IH].
  cbn [List.map fst]. f_equal. apply IH.
Qed.

(** no match of a text without "/>" ends in "/>" *)
Lemma finditer_no_slash_gt s : forall skip,
  Py.contains "/>" s = false ->
  Forall (fun m => Py.endswith (snd m) "/>" = false) (finditer_from skip s).
Proof.
  induction s as [|c r IH]; intros skip Hno; [constructor|].
  assert (Hr : Py.contains "/>" r = false).
  { destruct (Py.contains "/>" r) eqn:E; [|reflexivity].
    rewrite (contains_later _ c _ E) in Hno. discriminate. }
  cbn [finditer_from]. destruct skip as [|k]; [|apply IH, Hr].
  destruct (match_tag (String c r)) as [[groups n]|]; [|apply IH, Hr].
  constructor; [|apply IH, Hr]. cbn [snd].
  destruct (Py.endswith (Py.take n (String c r)) "/>") eqn:E; [|reflexivity].
  apply endswith_contains, contains_take in E. congruence.
Qed.

Lemma well_nested_balanced tags :
  Forall (fun m : (string * string) * string => Py.endswith (snd m) "/>" = false) tags ->
  forall tag_stack, well_nested tags tag_stack = balanced (List.map fst tags) tag_stack.
Proof.
  induction 1 as [|[[is_closing tag_name] matched] rest Hm _ IH]; intros st; [reflexivity|].
  cbn [well_nested balanced List.map fst]. cbn [snd] in Hm. rewrite Hm.
  destruct (Py.truthy is_closing); [|apply IH].
  destruct st as [|top below]; [reflexivity|].
  destruct (String.eqb top (Py.lower tag_name)); [apply IH|reflexivity].
Qed.

(** on a text without "/>" the check of the code is the check of the
    specification; the two part on self-closing tags only *)
Lemma is_valid_xhtml_well_formed text :
  Py.contains "/>" text = false -> is_valid_xhtml text = well_formed text.
Proof.
  intros Hno. rewrite (is_valid_xhtml_balanced _ Hno). unfold well_formed.
  rewrite (well_nested_balanced _ (finditer_no_slash_gt text 0 Hno)).
  rewrite finditer_findall. reflexivity.
Qed.



End Sanitizer.

Example sanitize_model_ex1 :
  Sanitizer.sanitize_text Sanitizer.clean_model Sanitizer.remove_lt "<i>a</i><a>b" = "i>a/i>a>b".
Proof. reflexivity. Qed.
Example sanitize_model_ex2 :
  Sanitizer.sanitize_text Sanitizer.clean_model Sanitizer.remove_lt "<i>a</i>" = "<i>a</i>".
Proof. reflexivity. Qed.

Example findall_ex1 :
  Sanitizer.findall_tags "a<i>b</i><A href=x>c</a><<br/>< p></ q>"
  = [("", "i"); ("/", "i"); ("", "A"); ("/", "a"); ("", "br")].
Proof. reflexivity. Qed.
Example findall_ex2 : Sanitizer.findall_tags "x <i y <b" = [].
Proof. reflexivity. Qed.
Example findall_ex3 : Sanitizer.findall_tags "<i<b>c</i>" = [("", "i"); ("/", "i")].
Proof. reflexivity. Qed.
Example valid_ex1 : Sanitizer.is_valid_xhtml "<i>a<strong>b</strong></i>" = true.
Proof. reflexivity. Qed.
Example valid_ex2 : Sanitizer.is_valid_xhtml "<i>a<strong>b</i></strong>" = false.
Proof. reflexivity. Qed.
Example valid_ex3 : Sanitizer.is_valid_xhtml "<a>x" = false.
Proof. reflexivity. Qed.
Example valid_ex4 : Sanitizer.is_valid_xhtml "plain &lt; text" = true.
Proof. reflexivity. Qed.
Example valid_ex5 : Sanitizer.is_valid_xhtml "<I>a</I>" = true.
Proof. reflexivity. Qed.
Example valid_ex6 : Sanitizer.is_valid_xhtml "<a href=/>x</a>" = false.
Proof. reflexivity. Qed.

(** The guard of the push reads the first place where the tag name occurs,
    not the tag at hand: once a name has occurred self-closing, none of its
    opening tags is pushed; otherwise its self-closing tags are pushed
    too. *)
Example valid_ex7 : Sanitizer.is_valid_xhtml "<i/><i>" = true.
Proof. reflexivity. Qed.
Example valid_ex8 : Sanitizer.is_valid_xhtml "<i>x</i><i/>" = false.
Proof. reflexivity. Qed.

(** ** SpamScorer: [SpamDetectionService.get_spam_score]
    (apps/comments/services.py) *)

Module Spam.

Local Open Scope Q_scope.

Definition spam_keywords : list string :=
  ["casino"; "poker"; "viagra"; "cialis"; "lottery"; "winner";
   "click here"; "free money"; "make money"; "work from home"].

(** the keywords found in the lower-cased text *)
Definition keywords_in (text_lower : string) : list string :=
  List.filter (fun keyword => Py.contains keyword text_lower) spam_keywords.

(** [min(score, 100)] *)
Definition py_min (score bound : Q) : Q :=
  if Qle_bool score bound then score else bound.

(** [a > b] *)
Definition Qgtb (a b : Q) : bool := negb (Qle_bool a b).

(** The score is a Python float as soon as the caps ratio is added; it is
    embedded as the exact rational. *)
Definition get_spam_score (comment_text user_name email : string)
                          (ip_address : option string) : Q :=
  let score := inject_Z 0 in
  let text_lower := Py.lower comment_text in
  let keyword_count := length (keywords_in text_lower) in
  let score := score + inject_Z (Z.of_nat keyword_count * 15) in
  let url_count := Py.count comment_text "http" in
  let score := score + inject_Z (Z.of_nat url_count * 10) in
  let caps_ratio :=
    Z.of_nat (Py.count_chars Py.isupper comment_text)
    # Pos.of_nat (Nat.max (Py.len comment_text) 1) in
  let score := score + caps_ratio * inject_Z 30 in
  let score :=
    if (Py.len comment_text <? 10)%nat || (2000 <? Py.len comment_text)%nat
    then score + inject_Z 10 else score in
  py_min score (inject_Z 100).

(** *** Facts about the parts of the score *)

Lemma len_lower s : Py.len (Py.lower s) = Py.len s.
Proof. induction s as [|c r IH]; cbn; [reflexivity|]. f_equal. exact IH. Qed.

Lemma prefix_len sub : forall s, String.prefix sub s = true -> (Py.len sub <= Py.len s)%nat.
Proof.
  unfold Py.len.
  induction sub as [|a sub IH]; intros s H; cbn [String.length]; [lia|].
  destruct s as [|b s]; cbn [String.prefix] in H; [discriminate|].
  destruct (ascii_dec a b); [|discriminate].
  apply IH in H. cbn [String.length]. lia.
Qed.

(** occurrences that do not overlap need room *)
Lemma count_from_room sub s :
  forall k, (Py.len sub * Py.count_from k sub s <= Py.len s - k)%nat.
Proof.
  induction s as [|c r IH]; intros k; cbn [Py.count_from]; [lia|].
  assert (Hlen : Py.len (String c r) = S (Py.len r)) by reflexivity.
  rewrite Hlen. destruct k as [|k].
  - destruct (String.prefix sub (String c r)) eqn:Hp.
    + apply prefix_len in Hp. rewrite Hlen in Hp.
      specialize (IH (Py.len sub - 1)%nat).
      rewrite Nat.mul_succ_r. lia.
    + specialize (IH 0%nat). lia.
  - specialize (IH k). lia.
Qed.

Lemma count_room s sub : (Py.len sub * Py.count s sub <= Py.len s)%nat.
Proof. unfold Py.count. pose proof (count_from_room sub s 0). lia. Qed.

(** an upper-case text has no "http" in it *)
Lemma count_http_upper s :
  Py.all_chars Py.isupper s = true -> forall k, Py.count_from k "http" s = 0%nat.
Proof.
  induction s as [|c r IH]; intros H k; cbn [Py.count_from]; [reflexivity|].
  cbn [Py.all_chars] in H. apply andb_prop in H as [Hc Hr].
  destruct k as [|k]; [|apply IH, Hr].
  cbn [String.prefix]. destruct (ascii_dec "h" c) as [<-|_]; [discriminate|].
  apply IH, Hr.
Qed.

Lemma count_chars_all p s :
  Py.all_chars p s = true -> Py.count_chars p s = Py.len s.
Proof.
  induction s as [|c r IH]; cbn; [reflexivity|].
  intros H. apply andb_prop in H as [-> Hr]. cbn. f_equal. apply IH, Hr.
Qed.

Lemma count_chars_le p s : (Py.count_chars p s <= Py.len s)%nat.
Proof.
  unfold Py.len. induction s as [|c r IH]; cbn; [lia|]. destruct (p c); cbn; lia.
Qed.

Lemma ratio_one n : (1 <= n)%nat -> Z.of_nat n # Pos.of_nat (Nat.max n 1) == 1.
Proof.
  intros Hn. rewrite Nat.max_l by exact Hn.
  unfold Qeq. cbn [Qnum Qden].
  rewrite <- (positive_nat_Z (Pos.of_nat n)), Nat2Pos.id by lia. lia.
Qed.

Lemma py_min_below score bound : score <= bound -> py_min score bound == score.
Proof.
  intros H. unfold py_min. apply Qle_bool_iff in H. rewrite H. reflexivity.
Qed.

(** the score of an upper-case text with one keyword in it: no URL term,
    the full caps term *)
Lemma uppercase_one_keyword_score text user_name email ip kw :
  Py.all_chars Py.isupper text = true ->
  keywords_in (Py.lower text) = [kw] ->
  (10 <= Py.len text)%nat ->
  get_spam_score text user_name email ip
  == (if (2000 <? Py.len text)%nat then inject_Z 55 else inject_Z 45).
Proof.
  intros Hup Hkw Hlen. unfold get_spam_score. cbv zeta.
  rewrite Hkw. unfold Py.count. rewrite (count_http_upper text Hup 0).
  rewrite (count_chars_all _ text Hup).
  assert (Hshort : (Py.len text <? 10)%nat = false) by (apply Nat.ltb_ge; exact Hlen).
  rewrite Hshort. cbn [orb length].
  pose proof (ratio_one (Py.len text) ltac:(lia)) as Hratio.
  destruct (2000 <? Py.len text)%nat.
  - rewrite py_min_below; rewrite Hratio; [reflexivity|discriminate].
  - rewrite py_min_below; rewrite Hratio; [reflexivity|discriminate].
Qed.

Lemma py_min_le score bound : py_min score bound <= score.
Proof.
  unfold py_min. destruct (Qle_bool score bound) eqn:E; [apply Qle_refl|].
  destruct (Qlt_le_dec bound score) as [H|H]; [apply Qlt_le_weak, H|].
  apply Qle_bool_iff in H. congruence.
Qed.

Lemma caps_ratio_le_one s :
  Z.of_nat (Py.count_chars Py.isupper s) # Pos.of_nat (Nat.max (Py.len s) 1) <= 1.
Proof.
  unfold Qle. cbn [Qnum Qden].
  rewrite <- (positive_nat_Z (Pos.of_nat _)), Nat2Pos.id by lia.
  pose proof (count_chars_le Py.isupper s). lia.
Qed.

(** however the scenario is read: with one keyword and three URLs the
    score cannot exceed 15 + 30 + 30 + 10 *)
Lemma one_keyword_three_urls_bound text user_name email ip :
  length (keywords_in (Py.lower text)) = 1%nat ->
  Py.count text "http" = 3%nat ->
  get_spam_score text user_name email ip <= inject_Z 85.
Proof.
  intros Hkw Hurl. unfold get_spam_score. cbv zeta. rewrite Hkw, Hurl.
  eapply Qle_trans; [apply py_min_le|].
  pose proof (caps_ratio_le_one text) as Hr.
  set (r := Z.of_nat _ # _) in *.
  change (inject_Z 0) with (0 # 1).
  change (inject_Z (Z.of_nat 1 * 15)) with (15 # 1).
  change (inject_Z (Z.of_nat 3 * 10)) with (30 # 1).
  change (inject_Z 30) with (30 # 1). change (inject_Z 10) with (10 # 1).
  change (inject_Z 85) with (85 # 1).
  destruct ((Py.len text <? 10)%nat || (2000 <? Py.len text)%nat); lra.
Qed.

Lemma py_min_le_bound score bound : py_min score bound <= bound.
Proof.
  unfold py_min. destruct (Qle_bool score bound) eqn:E; [|apply Qle_refl].
  apply Qle_bool_iff, E.
Qed.

Lemma py_min_nonneg score bound : 0 <= score -> 0 <= bound -> 0 <= py_min score bound.
Proof. intros Hs Hb. unfold py_min. destruct (Qle_bool score bound); assumption. Qed.

Lemma inject_nat_nonneg n k : (0 <= k)%Z -> 0 <= inject_Z (Z.of_nat n * k).
Proof. intros Hk. unfold Qle. cbn. nia. Qed.

(** X13.  The score is in the range that the docstring gives, 0 to 100,
    for every text. *)
Theorem spam_score_in_range :
  forall comment_text user_name email ip_address,
    0 <= get_spam_score comment_text user_name email ip_address
    /\ get_spam_score comment_text user_name email ip_address <= inject_Z 100.
Proof.
  intros text name mail ip. unfold get_spam_score. cbv zeta.
  split; [|apply py_min_le_bound].
  apply py_min_nonneg; [|discriminate].
  pose proof (inject_nat_nonneg (length (keywords_in (Py.lower text))) 15 ltac:(lia)) as Hk.
  pose proof (inject_nat_nonneg (Py.count text "http") 10 ltac:(lia)) as Hu.
  assert (Hr : 0 <= Z.of_nat (Py.count_chars Py.isupper text)
                    # Pos.of_nat (Nat.max (Py.len text) 1)).
  { unfold Qle. cbn. lia. }
  set (k := inject_Z (Z.of_nat (length _) * 15)) in *.
  set (u := inject_Z (Z.of_nat (Py.count _ _) * 10)) in *.
  set (r := Z.of_nat _ # _) in *.
  change (inject_Z 0) with (0 # 1). change (inject_Z 30) with (30 # 1).
  change (inject_Z 10) with (10 # 1).
  destruct ((Py.len text <? 10)%nat || (2000 <? Py.len text)%nat); nra.
Qed.

End Spam.

Example spam_score_ex1 :
  (Spam.get_spam_score "VIAGRAHTTPHTTPHTTP" "bob" "b@x.org" None == inject_Z 45)%Q.
Proof. reflexivity. Qed.
Example spam_score_ex2 :
  (Spam.get_spam_score "buy viagra http://a http://b http://c" "bob" "b@x.org" None
   == inject_Z 45)%Q.
Proof. reflexivity. Qed.
Example spam_score_ex3 :
  (Spam.get_spam_score "casino poker viagra cialis lottery winner" "bob" "b@x.org" None
   == inject_Z 90)%Q.
Proof. reflexivity. Qed.
Example spam_score_ex4 :
  (Spam.get_spam_score "CASINO POKER VIAGRA CIALIS LOTTERY WINNER http" "bob" "b@x.org" None
   == inject_Z 100)%Q.
Proof. reflexivity. Qed.

(** ** Request metadata *)

Module Http.

(** the entries of [request.META] the code reads *)
Record meta := mkMeta {
  HTTP_X_FORWARDED_FOR : option string;
  REMOTE_ADDR : option string
}.

(** [x.split(',')[0]] *)
Fixpoint before_comma (x : string) : string :=
  match x with
  | EmptyString => EmptyString
  | String c r => if Ascii.eqb c "," then EmptyString else String c (before_comma r)
  end.

(** [get_client_ip]: the same body in every view and serializer *)
Definition get_client_ip (m : meta) : option string :=
  match HTTP_X_FORWARDED_FOR m with
  | Some x_forwarded_for =>
      if Py.truthy x_forwarded_for then Some (before_comma x_forwarded_for)
      else REMOTE_ADDR m
  | None => REMOTE_ADDR m
  end.

End Http.

(** ** CommentStore, CaptchaChallenge and ModerationPolicy of apps/comments *)

Module Store.

Local Open Scope Z_scope.

Definition timedelta_minutes (n : Z) : Z := n * 60 * 1000000.
Definition timedelta_hours (n : Z) : Z := n * 3600 * 1000000.

(** *** Tables (apps/comments/models.py)

    Of a comment the columns that the operations below read or write;
    [home_page], [sanitized_text], [user_agent], [updated_at] and the
    attached files play no part in them. *)

Record Comment := mkComment {
  pk : nat;
  user_name : string;
  email : string;
  text : string;
  parent : option nat;
  created_at : Z;
  ip_address : option string;
  is_active : bool;
  is_moderated : bool;
  moderated_by : option nat;
  moderated_at : option Z;
  likes_count : nat;
  replies_count : nat
}.

Record CommentLike := mkLike {
  like_pk : nat;
  like_comment : nat;
  like_ip_address : option string;
  like_created_at : Z
}.

Record CaptchaToken := mkCaptcha {
  captcha_pk : nat;
  token : string;
  challenge : string;
  solution : string;
  captcha_created_at : Z;
  used_at : option Z;
  captcha_ip_address : string
}.

(** The tables and their primary-key sequences.  [token] is declared
    unique, so the CAPTCHA table is a map from the token. *)
Record DB := mkDB {
  comments : list Comment;
  comment_seq : nat;
  likes : list CommentLike;
  like_seq : nat;
  captchas : gmap string CaptchaToken;
  captcha_seq : nat
}.

Definition empty_db : DB := mkDB [] 0 [] 0 ∅ 0.

Definition with_comments (db : DB) (cs : list Comment) (seq : nat) : DB :=
  mkDB cs seq (likes db) (like_seq db) (captchas db) (captcha_seq db).
Definition with_likes (db : DB) (ls : list CommentLike) (seq : nat) : DB :=
  mkDB (comments db) (comment_seq db) ls seq (captchas db) (captcha_seq db).
Definition with_captchas (db : DB) (m : gmap string CaptchaToken) (seq : nat) : DB :=
  mkDB (comments db) (comment_seq db) (likes db) (like_seq db) m seq.

(** *** Row access *)

(** [Comment.objects.get(id=i)] *)
Definition get_comment (cs : list Comment) (i : nat) : option Comment :=
  List.find (fun c => (pk c =? i)%nat) cs.

(** an [UPDATE ... WHERE id = i] *)
Definition update_comment (f : Comment -> Comment) (i : nat)
                          (cs : list Comment) : list Comment :=
  List.map (fun c => if (pk c =? i)%nat then f c else c) cs.

Definition set_replies_count (n : nat) (c : Comment) : Comment :=
  mkComment (pk c) (user_name c) (email c) (text c) (parent c) (created_at c)
    (ip_address c) (is_active c) (is_moderated c) (moderated_by c)
    (moderated_at c) (likes_count c) n.

Definition set_likes_count (n : nat) (c : Comment) : Comment :=
  mkComment (pk c) (user_name c) (email c) (text c) (parent c) (created_at c)
    (ip_address c) (is_active c) (is_moderated c) (moderated_by c)
    (moderated_at c) n (replies_count c).

(** [is_active = False; is_moderated = True; moderated_by; moderated_at] *)
Definition hide (by_user : option nat) (now : Z) (c : Comment) : Comment :=
  mkComment (pk c) (user_name c) (email c) (text c) (parent c) (created_at c)
    (ip_address c) false true by_user (Some now)
    (likes_count c) (replies_count c).

Definition is_reply_to (p : nat) (c : Comment) : bool :=
  match parent c with
  | Some q => (q =? p)%nat
  | None => false
  end.

(** [p.replies], the reverse side of the [parent] foreign key *)
Definition replies (cs : list Comment) (p : nat) : list Comment :=
  List.filter (is_reply_to p) cs.

(** [c.likes] *)
Definition likes_of (ls : list CommentLike) (c : nat) : list CommentLike :=
  List.filter (fun l => (like_comment l =? c)%nat) ls.

(** *** [Comment.get_depth] and [Comment.can_reply] *)

(** The [while parent:] loop, started at [self.parent] with [depth = 0].
    The loop has no bound of its own; [fuel] bounds the number of rounds,
    and [None] stands for a walk that is not over when it runs out or
    that meets a parent row that does not exist. *)
Fixpoint depth_loop (fuel : nat) (cs : list Comment)
                    (parent_id : option nat) (depth : nat) : option nat :=
  match parent_id with
  | None => Some depth
  | Some p =>
      match fuel with
      | O => None
      | S k =>
          match get_comment cs p with
          | Some row => depth_loop k cs (parent row) (S depth)
          | None => None
          end
      end
  end.

Definition get_depth (cs : list Comment) (c : Comment) : option nat :=
  depth_loop (length cs) cs (parent c) 0.

(** [self.get_depth() < 3] *)
Definition can_reply (cs : list Comment) (c : Comment) : option bool :=
  match get_depth cs c with
  | Some d => Some (d <? 3)%nat
  | None => None
  end.

(** *** [CaptchaToken.is_expired] and [CaptchaToken.is_used] *)

Definition is_expired (now : Z) (c : CaptchaToken) : bool :=
  captcha_created_at c + timedelta_minutes 10 <? now.

Definition is_used (c : CaptchaToken) : bool :=
  match used_at c with
  | Some _ => true
  | None => false
  end.

Definition set_used_at (t : Z) (c : CaptchaToken) : CaptchaToken :=
  mkCaptcha (captcha_pk c) (token c) (challenge c) (solution c)
    (captcha_created_at c) (Some t) (captcha_ip_address c).

(** *** Requests and responses *)

(** what a comment submission carries.  [req_fields_valid] is the outcome
    of the framework's own validators on [user_name], [email],
    [home_page], [text] and [uploaded_files]. *)
Record comment_request := mkRequest {
  req_meta : Http.meta;
  req_user_name : string;
  req_email : string;
  req_text : string;
  req_fields_valid : bool;
  req_parent : option nat;
  captcha_token : string;
  captcha_solution : string
}.

Definition with_parent (req : comment_request) (p : option nat) : comment_request :=
  mkRequest (req_meta req) (req_user_name req) (req_email req) (req_text req)
    (req_fields_valid req) p (captcha_token req) (captcha_solution req).

Inductive error :=
| FieldInvalid
| ParentDoesNotExist
| FieldBlank
| InvalidCaptchaToken
| CaptchaExpired
| CaptchaUsed
| IncorrectCaptchaSolution
| MaxNestingReached
| AlreadyLiked.

(** HTTP outcomes.  [ImagePng] is the picture that
    [CaptchaService.generate_image] draws of the challenge text, random
    noise and all; [ServerError] is an exception no handler catches. *)
Inductive response :=
| Created (c : Comment)
| LikeCreated (l : CommentLike)
| CaptchaCreated (c : CaptchaToken)
| ImagePng (challenge_text : string)
| BadRequest (errors : list error)
| NotFound
| Gone
| ServerError.

Inductive result (A : Type) :=
| Ok (a : A)
| Invalid (e : error)
| Raised.
Arguments Ok {A} a.
Arguments Invalid {A} e.
Arguments Raised {A}.

(** *** [CommentSerializer] (apps/comments/serializers.py) *)

Definition validate_captcha_token (now : Z) (db : DB) (value : string)
  : result string :=
  match captchas db !! value with
  | Some captcha =>
      if is_expired now captcha then Invalid CaptchaExpired
      else if is_used captcha then Invalid CaptchaUsed
      else Ok value
  | None => Invalid InvalidCaptchaToken
  end.

(** the per-field pass of the serializer; the errors of all fields are
    collected before any is reported *)
Definition field_errors (now : Z) (db : DB) (req : comment_request) : list error :=
  (if req_fields_valid req then [] else [FieldInvalid])
  ++ match req_parent req with
     | Some p =>
         match get_comment (comments db) p with
         | Some _ => []
         | None => [ParentDoesNotExist]
         end
     | None => []
     end
  ++ (if Py.truthy (captcha_token req) then
        match validate_captcha_token now db (captcha_token req) with
        | Ok _ => []
        | Invalid e => [e]
        | Raised => []
        end
      else [FieldBlank])
  ++ (if Py.truthy (captcha_solution req) then [] else [FieldBlank]).

(** [validate(attrs)] *)
Definition validate (db : DB) (req : comment_request) : result unit :=
  let captcha_check :=
    if Py.truthy (captcha_token req) && Py.truthy (captcha_solution req) then
      match captchas db !! captcha_token req with
      | Some captcha =>
          if negb (String.eqb (solution captcha) (captcha_solution req))
          then Invalid IncorrectCaptchaSolution else Ok tt
      | None => Invalid InvalidCaptchaToken
      end
    else Ok tt in
  match captcha_check with
  | Ok _ =>
      match req_parent req with
      | Some p =>
          match get_comment (comments db) p with
          | Some parent_row =>
              match can_reply (comments db) parent_row with
              | Some true => Ok tt
              | Some false => Invalid MaxNestingReached
              | None => Raised
              end
          | None => Raised
          end
      | None => Ok tt
      end
  | other => other
  end.

(** [comment_post_save] (apps/comments/signals.py); the search index and
    the notification it also feeds are outside the tables *)
Definition comment_post_save (instance : Comment) (created : bool)
                             (cs : list Comment) : list Comment :=
  if created then
    match parent instance with
    | Some p =>
        update_comment
          (set_replies_count (length (List.filter is_active (replies cs p)))) p cs
    | None => cs
    end
  else cs.

(** [create(validated_data)] *)
Definition serializer_create (now : Z) (req : comment_request) (db : DB)
  : Comment * DB :=
  let comment :=
    mkComment (S (comment_seq db)) (req_user_name req) (req_email req)
      (req_text req) (req_parent req) now (Http.get_client_ip (req_meta req))
      true false None None 0 0 in
  (* Comment.objects.create: the insert, then the post_save signal *)
  let cs := comment_post_save comment true (comments db ++ [comment]) in
  (* mark the CAPTCHA as used *)
  let tokens :=
    match captchas db !! captcha_token req with
    | Some captcha => <[captcha_token req := set_used_at now captcha]> (captchas db)
    | None => captchas db
    end in
  (* update the parent reply count *)
  let cs :=
    match parent comment with
    | Some p => update_comment (set_replies_count (length (replies cs p))) p cs
    | None => cs
    end in
  (comment,
   mkDB cs (S (comment_seq db)) (likes db) (like_seq db) tokens (captcha_seq db)).

(** *** Views (apps/comments/views.py)

    The [ratelimit] decorators come from a third-party package; the
    views are embedded for requests that it lets through. *)

(** [CommentListCreateView.post]: [is_valid], then [create] *)
Definition post_comment (now : Z) (req : comment_request) (db : DB)
  : response * DB :=
  match field_errors now db req with
  | [] =>
      match validate db req with
      | Ok _ => let '(c, db') := serializer_create now req db in (Created c, db')
      | Invalid e => (BadRequest [e], db)
      | Raised => (ServerError, db)
      end
  | errors => (BadRequest errors, db)
  end.

(** [Comment.objects.get(id=i, is_active=True)] *)
Definition get_active_comment (cs : list Comment) (i : nat) : option Comment :=
  List.find (fun c => (pk c =? i)%nat && is_active c) cs.

(** [CommentReplyCreateView.post] *)
Definition post_reply (now : Z) (parent_id : nat) (req : comment_request)
                      (db : DB) : response * DB :=
  match get_active_comment (comments db) parent_id with
  | Some parent_comment =>
      match can_reply (comments db) parent_comment with
      | Some true => post_comment now (with_parent req (Some parent_id)) db
      | Some false => (BadRequest [MaxNestingReached], db)
      | None => (ServerError, db)
      end
  | None => (NotFound, db)
  end.

Definition same_ip (a b : option string) : bool :=
  match a, b with
  | Some x, Some y => String.eqb x y
  | None, None => true
  | _, _ => false
  end.

(** [CommentLikeCreateView.post] with [CommentLikeSerializer.create] and
    the [comment_like_post_save] signal *)
Definition post_like (now : Z) (comment_id : nat) (m : Http.meta) (db : DB)
  : response * DB :=
  match get_active_comment (comments db) comment_id with
  | Some _ =>
      let ip := Http.get_client_ip m in
      match List.find (fun l => (like_comment l =? comment_id)%nat
                                && same_ip (like_ip_address l) ip) (likes db) with
      | Some _ => (BadRequest [AlreadyLiked], db)
      | None =>
          match ip with
          | None => (ServerError, db)
          | Some _ =>
              let like := mkLike (S (like_seq db)) comment_id ip now in
              let ls := (likes db ++ [like])%list in
              (* the signal, then the serializer: the same recount twice *)
              let recount := set_likes_count (length (likes_of ls comment_id)) in
              let cs := update_comment recount comment_id (comments db) in
              let cs := update_comment recount comment_id cs in
              (LikeCreated like,
               mkDB cs (comment_seq db) ls (S (like_seq db))
                    (captchas db) (captcha_seq db))
          end
      end
  | None => (NotFound, db)
  end.

(** [generate_captcha] with [CaptchaSerializer.create]; the two random
    numbers and the random token are arguments.  A token that is already
    in the table violates its unique constraint. *)
Definition generate_captcha (now : Z) (num1 num2 : nat) (tok : string)
                            (m : Http.meta) (db : DB) : response * DB :=
  let challenge := Py.str num1 +:+ " + " +:+ Py.str num2 +:+ " = ?" in
  let solution := Py.str (num1 + num2) in
  match Http.get_client_ip m, captchas db !! tok with
  | Some ip, None =>
      let row := mkCaptcha (S (captcha_seq db)) tok challenge solution now None ip in
      (CaptchaCreated row,
       with_captchas db (<[tok := row]> (captchas db)) (S (captcha_seq db)))
  | _, _ => (ServerError, db)
  end.

(** [captcha_image] *)
Definition captcha_image (now : Z) (tok : string) (db : DB) : response :=
  match captchas db !! tok with
  | Some captcha =>
      if is_expired now captcha then Gone
      else ImagePng (challenge captcha)
  | None => NotFound
  end.

(** *** [CommentService.mark_comment_as_spam] (apps/comments/services.py) *)

Definition mark_comment_as_spam (now : Z) (comment_id : nat)
    (moderator_user : option nat) (db : DB) : bool * DB :=
  match get_comment (comments db) comment_id with
  | Some _ =>
      (true,
       with_comments db
         (update_comment (hide moderator_user now) comment_id (comments db))
         (comment_seq db))
  | None => (false, db)
  end.

(** *** Tasks (apps/comments/tasks.py) *)

(** the rows [detect_and_moderate_spam] looks at *)
Definition recent_unmoderated (now : Z) (c : Comment) : bool :=
  is_active c && negb (is_moderated c)
  && (now - timedelta_hours 1 <=? created_at c).

Definition spam_score_of (c : Comment) : Q :=
  Spam.get_spam_score (text c) (user_name c) (email c) (ip_address c).

Definition auto_moderate (now : Z) (c : Comment) : Comment :=
  if recent_unmoderated now c && Spam.Qgtb (spam_score_of c) (inject_Z 80)
  then hide (moderated_by c) now c
  else c.

(** returns [moderated_count] and the table *)
Definition detect_and_moderate_spam (now : Z) (db : DB) : nat * DB :=
  (length (List.filter
             (fun c => recent_unmoderated now c
                       && Spam.Qgtb (spam_score_of c) (inject_Z 80))
             (comments db)),
   with_comments db (List.map (auto_moderate now) (comments db)) (comment_seq db)).

(** rows created less than an hour ago survive *)
Definition cleanup_expired_captchas (now : Z) (db : DB) : DB :=
  with_captchas db
    (filter (fun kc : string * CaptchaToken =>
               now - timedelta_hours 1 <= captcha_created_at kc.2)
            (captchas db))
    (captcha_seq db).

(** *** Histories *)

Inductive op :=
| GenerateCaptcha (num1 num2 : nat) (tok : string) (m : Http.meta)
| PostComment (req : comment_request)
| PostReply (parent_id : nat) (req : comment_request)
| PostLike (comment_id : nat) (m : Http.meta)
| MarkCommentAsSpam (comment_id : nat) (moderator_user : option nat)
| DetectAndModerateSpam
| CleanupExpiredCaptchas.

Definition exec (now : Z) (o : op) (db : DB) : DB :=
  match o with
  | GenerateCaptcha num1 num2 tok m => snd (generate_captcha now num1 num2 tok m db)
  | PostComment req => snd (post_comment now req db)
  | PostReply parent_id req => snd (post_reply now parent_id req db)
  | PostLike comment_id m => snd (post_like now comment_id m db)
  | MarkCommentAsSpam comment_id u => snd (mark_comment_as_spam now comment_id u db)
  | DetectAndModerateSpam => snd (detect_and_moderate_spam now db)
  | CleanupExpiredCaptchas => cleanup_expired_captchas now db
  end.

(** the operations of a history, each at its own time, oldest first *)
Fixpoint run (history : list (Z * op)) (db : DB) : DB :=
  match history with
  | [] => db
  | (now, o) :: rest => run rest (exec now o db)
  end.

Definition is_created (r : response) : bool :=
  match r with
  | Created _ => true
  | _ => false
  end.

(** *** What a submission does to the tables *)

Lemma validate_captcha_token_ok now db value v :
  validate_captcha_token now db value = Ok v ->
  exists captcha,
    captchas db !! value = Some captcha
    /\ is_expired now captcha = false /\ used_at captcha = None.
Proof.
  unfold validate_captcha_token, is_used.
  destruct (captchas db !! value) as [captcha|]; [|discriminate].
  destruct (is_expired now captcha) eqn:He; [discriminate|].
  destruct (used_at captcha) eqn:Hu; [discriminate|].
  intros _. exists captcha. auto.
Qed.

Lemma field_errors_nil now db req :
  field_errors now db req = [] ->
  req_fields_valid req = true
  /\ Py.truthy (captcha_token req) = true
  /\ Py.truthy (captcha_solution req) = true
  /\ validate_captcha_token now db (captcha_token req) = Ok (captcha_token req)
  /\ (forall p, req_parent req = Some p ->
                exists row, get_comment (comments db) p = Some row).
Proof.
  unfold field_errors. intros H.
  apply app_eq_nil in H as [H1 H]. apply app_eq_nil in H as [H2 H].
  apply app_eq_nil in H as [H3 H4].
  destruct (req_fields_valid req); [|discriminate].
  destruct (Py.truthy (captcha_token req)); [|discriminate].
  destruct (Py.truthy (captcha_solution req)); [|discriminate].
  repeat split.
  - unfold validate_captcha_token in *.
    destruct (captchas db !! captcha_token req) as [captcha|]; [|discriminate].
    destruct (is_expired now captcha); [discriminate|].
    destruct (is_used captcha); [discriminate|]. reflexivity.
  - intros p Hp. rewrite Hp in H2.
    destruct (get_comment (comments db) p) as [row|]; [eauto|discriminate].
Qed.

(** a submission either leaves the tables alone and creates nothing, or
    runs [create] after every check has passed *)
Lemma post_comment_cases now req db r db' :
  post_comment now req db = (r, db') ->
  (is_created r = false /\ db' = db)
  \/ (exists c, r = Created c
                /\ serializer_create now req db = (c, db')
                /\ field_errors now db req = []
                /\ validate db req = Ok tt).
Proof.
  unfold post_comment.
  destruct (field_errors now db req) as [|e errs] eqn:Hf.
  - destruct (validate db req) as [[]| |] eqn:Hv.
    + destruct (serializer_create now req db) as [c d] eqn:Hc.
      intros [= <- <-]. right. exists c. auto.
    + intros [= <- <-]. left. auto.
    + intros [= <- <-]. left. auto.
  - intros [= <- <-]. left. auto.
Qed.

Lemma post_reply_cases now parent_id req db r db' :
  post_reply now parent_id req db = (r, db') ->
  (is_created r = false /\ db' = db)
  \/ (post_comment now (with_parent req (Some parent_id)) db = (r, db')
      /\ exists parent_comment,
           get_active_comment (comments db) parent_id = Some parent_comment
           /\ can_reply (comments db) parent_comment = Some true).
Proof.
  unfold post_reply.
  destruct (get_active_comment (comments db) parent_id) as [pc|] eqn:Hp.
  - destruct (can_reply (comments db) pc) as [[]|] eqn:Hc.
    + intros H. right. eauto.
    + intros [= <- <-]. left. auto.
    + intros [= <- <-]. left. auto.
  - intros [= <- <-]. left. auto.
Qed.

(** *** Expiry *)

Lemma expired_token_field_error now db req captcha :
  captchas db !! captcha_token req = Some captcha ->
  is_expired now captcha = true ->
  Py.truthy (captcha_token req) = true ->
  In CaptchaExpired (field_errors now db req).
Proof.
  intros Hget Hexp Htok. unfold field_errors.
  rewrite Htok. unfold validate_captcha_token. rewrite Hget, Hexp.
  apply in_or_app. right. apply in_or_app. right. apply in_or_app. left.
  left. reflexivity.
Qed.

Lemma token_field_error_rejects now db req :
  field_errors now db req <> [] ->
  exists errors, post_comment now req db = (BadRequest errors, db)
                 /\ errors = field_errors now db req.
Proof.
  intros H. unfold post_comment.
  destruct (field_errors now db req) as [|e errs]; [contradiction|].
  eexists. split; reflexivity.
Qed.

Lemma token_field_never_empty_on_blank now db req :
  Py.truthy (captcha_token req) = false -> field_errors now db req <> [].
Proof.
  intros Htok H. apply field_errors_nil in H as (_ & Ht & _). congruence.
Qed.

(** C4.  A validation attempt on a CAPTCHA token made more than ten
    minutes after its [created_at] fails and is reported as expired,
    whatever solution is submitted and whether or not the token was used
    before: the field validator answers "expired", and a submission that
    carries the token is answered 400 with that error and changes
    nothing. *)
Theorem expired_captcha_rejected :
  forall now db tok captcha,
    captchas db !! tok = Some captcha ->
    captcha_created_at captcha + timedelta_minutes 10 < now ->
    validate_captcha_token now db tok = Invalid CaptchaExpired
    /\ forall req,
         captcha_token req = tok -> Py.truthy tok = true ->
         exists errors,
           post_comment now req db = (BadRequest errors, db)
           /\ In CaptchaExpired errors.
Proof.
  intros now db tok captcha Hget Hlate.
  assert (Hexp : is_expired now captcha = true).
  { unfold is_expired. apply Z.ltb_lt. exact Hlate. }
  split.
  - unfold validate_captcha_token. rewrite Hget, Hexp. reflexivity.
  - intros req <- Htok.
    pose proof (expired_token_field_error now db req captcha Hget Hexp Htok) as Hin.
    destruct (token_field_error_rejects now db req) as [errors [Hpost ->]].
    + intros Hnil. rewrite Hnil in Hin. destruct Hin.
    + exists (field_errors now db req). split; assumption.
Qed.

(** *** The image endpoint *)

Lemma serializer_create_captchas now req db c db' captcha :
  serializer_create now req db = (c, db') ->
  captchas db !! captcha_token req = Some captcha ->
  captchas db' = <[captcha_token req := set_used_at now captcha]> (captchas db)
  /\ captcha_seq db' = captcha_seq db.
Proof.
  unfold serializer_create. intros [= _ <-] Hget. cbn. rewrite Hget. auto.
Qed.

(** C10.  For a token that exists and is within its ten-minute lifetime
    the image endpoint returns the challenge image whether or not the
    token has been used; it answers 410 exactly for expired tokens and
    404 exactly for unknown ones; and after a submission has consumed a
    token, its image is still served while the lifetime lasts. *)
Theorem captcha_image_served_after_use :
  forall now db tok captcha,
    captchas db !! tok = Some captcha ->
    now <= captcha_created_at captcha + timedelta_minutes 10 ->
    captcha_image now tok db = ImagePng (challenge captcha)
    /\ (forall t, captcha_image t tok db = Gone <->
                  captcha_created_at captcha + timedelta_minutes 10 < t)
    /\ (forall db0 other, captcha_image now other db0 = NotFound <->
                          captchas db0 !! other = None)
    /\ (forall t req c db',
          captcha_token req = tok ->
          post_comment t req db = (Created c, db') ->
          used_at captcha = None
          /\ (exists row, captchas db' !! tok = Some row /\ used_at row = Some t)
          /\ captcha_image now tok db' = ImagePng (challenge captcha)).
Proof.
  intros now db tok captcha Hget Hlive.
  assert (Hexp : is_expired now captcha = false).
  { unfold is_expired. apply Z.ltb_ge. exact Hlive. }
  repeat split.
  - unfold captcha_image. rewrite Hget, Hexp. reflexivity.
  - unfold captcha_image. rewrite Hget. unfold is_expired.
    destruct (captcha_created_at captcha + timedelta_minutes 10 <? t) eqn:E.
    + intros _. apply Z.ltb_lt, E.
    + discriminate.
  - intros Hlt. unfold captcha_image. rewrite Hget. unfold is_expired.
    apply Z.ltb_lt in Hlt. rewrite Hlt. reflexivity.
  - unfold captcha_image.
    destruct (captchas db0 !! other) as [row|]; [|reflexivity].
    destruct (is_expired now row); discriminate.
  - intros Hnone. unfold captcha_image. rewrite Hnone. reflexivity.
  - apply post_comment_cases in H0 as [[Hc _]|(c' & Hr & Hcreate & Hf & _)];
      [discriminate|].
    apply field_errors_nil in Hf as (_ & _ & _ & Hv & _).
    apply validate_captcha_token_ok in Hv as (row & Hrow & _ & Hunused).
    rewrite H, Hget in Hrow. injection Hrow as <-. exact Hunused.
  - apply post_comment_cases in H0 as [[Hc _]|(c' & Hr & Hcreate & Hf & _)];
      [discriminate|].
    rewrite <- H in Hget.
    destruct (serializer_create_captchas _ _ _ _ _ _ Hcreate Hget) as [Hcaps _].
    exists (set_used_at t captcha). rewrite <- H, Hcaps, lookup_insert_eq. auto.
  - apply post_comment_cases in H0 as [[Hc _]|(c' & Hr & Hcreate & Hf & _)];
      [discriminate|].
    rewrite <- H in Hget.
    destruct (serializer_create_captchas _ _ _ _ _ _ Hcreate Hget) as [Hcaps _].
    unfold captcha_image. rewrite <- H, Hcaps, lookup_insert_eq.
    unfold is_expired in *. cbn. rewrite Hexp. reflexivity.
Qed.

(** *** Sample data *)

Definition sample_meta : Http.meta := Http.mkMeta None (Some "10.0.0.1").

Definition sample_request (tok sol : string) (p : option nat) : comment_request :=
  mkRequest sample_meta "Al" "al@example.org"
    "This is a great article, thanks!" true p tok sol.

(** one CAPTCHA, "3 + 4 = ?", issued at time 0 *)
Definition db_one_token : DB :=
  snd (generate_captcha 0 3 4 "Zx81" sample_meta empty_db).

Definition sample_token : CaptchaToken :=
  mkCaptcha 1 "Zx81" "3 + 4 = ?" "7" 0 None "10.0.0.1".

(** the root comment of the scenario of the specification *)
Definition sample_root : Comment :=
  mkComment 1 "Al" "al@example.org" "This is a great article, thanks!" None 5
    (Some "10.0.0.1") true false None None 0 0.

Example db_one_token_lookup : captchas db_one_token !! "Zx81" = Some sample_token.
Proof. reflexivity. Qed.

Lemma expired_captcha_rejected_witness :
  validate_captcha_token 600000001 db_one_token "Zx81" = Invalid CaptchaExpired
  /\ forall req,
       captcha_token req = "Zx81" -> Py.truthy "Zx81" = true ->
       exists errors,
         post_comment 600000001 req db_one_token = (BadRequest errors, db_one_token)
         /\ In CaptchaExpired errors.
Proof.
  apply (expired_captcha_rejected 600000001 db_one_token "Zx81" sample_token).
  - reflexivity.
  - reflexivity.
Defined.

Lemma captcha_image_served_after_use_witness :
  captcha_image 600000000 "Zx81" db_one_token = ImagePng "3 + 4 = ?".
Proof.
  apply (captcha_image_served_after_use 600000000 db_one_token "Zx81" sample_token).
  - reflexivity.
  - discriminate.
Defined.

Example submission_ex :
  exists c db',
    post_comment 5 (sample_request "Zx81" "7" None) db_one_token = (Created c, db')
    /\ is_active c = true /\ get_depth (comments db') c = Some 0%nat
    /\ replies_count c = 0%nat /\ likes_count c = 0%nat
    /\ captcha_image 6 "Zx81" db' = ImagePng "3 + 4 = ?"
    /\ validate_captcha_token 6 db' "Zx81" = Invalid CaptchaUsed.
Proof. do 2 eexists. repeat split. Qed.

(** *** One-shot consumption of a CAPTCHA token *)

(** primary keys come from the sequence *)
Definition captcha_ids_fresh (db : DB) : Prop :=
  forall k row, captchas db !! k = Some row -> (captcha_pk row <= captcha_seq db)%nat.

(** how one operation can change the CAPTCHA table *)
Inductive captcha_change (now : Z) (db db' : DB) : Prop :=
| change_none :
    captchas db' = captchas db -> captcha_seq db' = captcha_seq db ->
    captcha_change now db db'
| change_issue tok row :
    captchas db !! tok = None -> captcha_pk row = S (captcha_seq db) ->
    captchas db' = <[tok := row]> (captchas db) ->
    captcha_seq db' = S (captcha_seq db) ->
    captcha_change now db db'
| change_consume tok captcha :
    captchas db !! tok = Some captcha -> used_at captcha = None ->
    captchas db' = <[tok := set_used_at now captcha]> (captchas db) ->
    captcha_seq db' = captcha_seq db ->
    captcha_change now db db'
| change_cleanup :
    captchas db' =
      filter (fun kc : string * CaptchaToken =>
                now - timedelta_hours 1 <= captcha_created_at kc.2) (captchas db) ->
    captcha_seq db' = captcha_seq db ->
    captcha_change now db db'.

Lemma post_comment_change now req db r db' :
  post_comment now req db = (r, db') -> captcha_change now db db'.
Proof.
  intros H. apply post_comment_cases in H as [[_ ->]|(c & _ & Hc & Hf & _)].
  - apply change_none; reflexivity.
  - apply field_errors_nil in Hf as (_ & _ & _ & Hv & _).
    apply validate_captcha_token_ok in Hv as (captcha & Hget & _ & Hunused).
    destruct (serializer_create_captchas _ _ _ _ _ _ Hc Hget) as [Hcaps Hseq].
    eapply change_consume; eassumption.
Qed.

Lemma post_reply_change now parent_id req db r db' :
  post_reply now parent_id req db = (r, db') -> captcha_change now db db'.
Proof.
  intros H. apply post_reply_cases in H as [[_ ->]|[H _]].
  - apply change_none; reflexivity.
  - eapply post_comment_change, H.
Qed.

Lemma exec_change now o db : captcha_change now db (exec now o db).
Proof.
  destruct o as [n1 n2 tok m|req|pid req|cid m|cid u| |]; cbn [exec].
  - unfold generate_captcha.
    destruct (Http.get_client_ip m) as [ip|]; [|apply change_none; reflexivity].
    destruct (captchas db !! tok) eqn:Hget; [apply change_none; reflexivity|].
    eapply change_issue; [exact Hget| |reflexivity|reflexivity]; reflexivity.
  - destruct (post_comment now req db) as [r db'] eqn:H.
    eapply post_comment_change, H.
  - destruct (post_reply now pid req db) as [r db'] eqn:H.
    eapply post_reply_change, H.
  - unfold post_like.
    destruct (get_active_comment (comments db) cid); [|apply change_none; reflexivity].
    destruct (List.find _ (likes db)); [apply change_none; reflexivity|].
    destruct (Http.get_client_ip m); apply change_none; reflexivity.
  - unfold mark_comment_as_spam.
    destruct (get_comment (comments db) cid); apply change_none; reflexivity.
  - apply change_none; reflexivity.
  - apply change_cleanup; reflexivity.
Qed.

Lemma captcha_ids_fresh_change now db db' :
  captcha_change now db db' -> captcha_ids_fresh db -> captcha_ids_fresh db'.
Proof.
  intros Hch Hfresh k row.
  destruct Hch as [-> ->|tok new Hnone Hpk -> ->|tok captcha Hsome Hun -> ->| -> ->].
  - apply Hfresh.
  - rewrite lookup_insert. case_decide.
    + intros [= <-]. lia.
    + intros H'. specialize (Hfresh _ _ H'). lia.
  - rewrite lookup_insert. case_decide.
    + intros [= <-]. cbn. apply (Hfresh _ _ Hsome).
    + apply Hfresh.
  - intros H'. apply map_lookup_filter_Some in H' as [H' _]. apply (Hfresh _ _ H').
Qed.

Lemma captcha_ids_fresh_run history :
  forall db, captcha_ids_fresh db -> captcha_ids_fresh (run history db).
Proof.
  induction history as [|[now o] rest IH]; intros db Hfresh; cbn [run]; [exact Hfresh|].
  apply IH. eapply captcha_ids_fresh_change; [apply exec_change|exact Hfresh].
Qed.

Lemma captcha_ids_fresh_empty : captcha_ids_fresh empty_db.
Proof. intros k row H. cbn in H. rewrite lookup_empty in H. discriminate. Qed.

(** what stays true of a consumed row [row0], stored under [tok] *)
Definition consumed_stays (tok : string) (row0 : CaptchaToken) (db : DB) : Prop :=
  (captcha_pk row0 <= captcha_seq db)%nat
  /\ captcha_ids_fresh db
  /\ forall row, captchas db !! tok = Some row ->
                 captcha_pk row = captcha_pk row0 -> row = row0.

Lemma consumed_stays_change now tok row0 db db' :
  is_used row0 = true ->
  captcha_change now db db' ->
  consumed_stays tok row0 db -> consumed_stays tok row0 db'.
Proof.
  intros Hused Hch (Hle & Hfresh & Hsame).
  split; [|split].
  - destruct Hch as [_ ->|? ? _ _ _ ->|? ? _ _ _ ->|_ ->]; lia.
  - eapply captcha_ids_fresh_change; eassumption.
  - intros row.
    destruct Hch as [-> _|k new Hnone Hpk -> _|k captcha Hsome Hun -> _| -> _].
    + apply Hsame.
    + rewrite lookup_insert. case_decide.
      * intros [= <-] Heq. lia.
      * apply Hsame.
    + rewrite lookup_insert. case_decide.
      * subst k. intros [= <-] Heq. cbn in Heq.
        specialize (Hsame _ Hsome Heq). subst captcha.
        unfold is_used in Hused. rewrite Hun in Hused. discriminate.
      * apply Hsame.
    + intros H'. apply map_lookup_filter_Some in H' as [H' _]. apply Hsame, H'.
Qed.

Lemma consumed_stays_run tok row0 history :
  is_used row0 = true ->
  forall db, consumed_stays tok row0 db -> consumed_stays tok row0 (run history db).
Proof.
  intros Hused.
  induction history as [|[now o] rest IH]; intros db H; cbn [run]; [exact H|].
  apply IH. eapply consumed_stays_change; [exact Hused|apply exec_change|exact H].
Qed.

Lemma used_token_invalid now db tok row :
  captchas db !! tok = Some row -> is_used row = true ->
  validate_captcha_token now db tok = Invalid CaptchaExpired
  \/ validate_captcha_token now db tok = Invalid CaptchaUsed.
Proof.
  intros Hget Hused. unfold validate_captcha_token. rewrite Hget, Hused.
  destruct (is_expired now row); auto.
Qed.

Lemma used_token_rejects now db req row :
  captchas db !! captcha_token req = Some row -> is_used row = true ->
  exists errors, post_comment now req db = (BadRequest errors, db).
Proof.
  intros Hget Hused.
  destruct (token_field_error_rejects now db req) as [errors [H _]]; [|eauto].
  intros Hnil. apply field_errors_nil in Hnil as (_ & _ & _ & Hv & _).
  destruct (used_token_invalid now db _ row Hget Hused) as [H|H];
    rewrite H in Hv; discriminate.
Qed.

(** C3.  Once a submission has passed validation with a CAPTCHA token and
    [used_at] has gone from null to the time of that submission, then
    after any further history of operations, as long as that token row is
    still stored: its [used_at] is still that first time, the field
    validator rejects the token, and every submission or reply that
    carries it is refused and changes nothing, whatever solution it
    submits. *)
Theorem captcha_token_single_use :
  forall now req db c db1,
    captcha_ids_fresh db ->
    post_comment now req db = (Created c, db1) ->
    exists captcha,
      captchas db !! captcha_token req = Some captcha
      /\ used_at captcha = None
      /\ solution captcha = captcha_solution req
      /\ captchas db1 !! captcha_token req = Some (set_used_at now captcha)
      /\ forall history row,
           captchas (run history db1) !! captcha_token req = Some row ->
           captcha_pk row = captcha_pk captcha ->
           used_at row = Some now
           /\ forall now' req',
                captcha_token req' = captcha_token req ->
                (exists e, validate_captcha_token now' (run history db1)
                             (captcha_token req) = Invalid e)
                /\ (exists errors,
                      post_comment now' req' (run history db1)
                      = (BadRequest errors, run history db1))
                /\ (forall parent_id,
                      is_created (fst (post_reply now' parent_id req' (run history db1)))
                      = false
                      /\ snd (post_reply now' parent_id req' (run history db1))
                         = run history db1).
Proof.
  intros now req db c db1 Hfresh Hpost.
  pose proof (post_comment_change _ _ _ _ _ Hpost) as Hch.
  apply post_comment_cases in Hpost as [[Hc _]|(c' & _ & Hcreate & Hf & Hval)];
    [discriminate|].
  apply field_errors_nil in Hf as (_ & Htok & Hsol & Hv & _).
  apply validate_captcha_token_ok in Hv as (captcha & Hget & _ & Hunused).
  destruct (serializer_create_captchas _ _ _ _ _ _ Hcreate Hget) as [Hcaps Hseq].
  exists captcha.
  split; [exact Hget|]. split; [exact Hunused|]. split; [|split].
  - unfold validate in Hval. rewrite Htok, Hsol, Hget in Hval. cbn in Hval.
    destruct (String.eqb (solution captcha) (captcha_solution req)) eqn:E;
      [apply String.eqb_eq, E|discriminate].
  - rewrite Hcaps. apply lookup_insert_eq.
  - intros history row Hrow Hpk.
    set (row0 := set_used_at now captcha).
    assert (Hused : is_used row0 = true) by reflexivity.
    assert (H1 : consumed_stays (captcha_token req) row0 db1).
    { split; [|split].
      - cbn. rewrite Hseq. apply (Hfresh _ _ Hget).
      - eapply captcha_ids_fresh_change; eassumption.
      - intros r Hr _. rewrite Hcaps, lookup_insert_eq in Hr.
        injection Hr as <-. reflexivity. }
    apply (consumed_stays_run _ _ history Hused) in H1 as (_ & _ & Hsame).
    assert (row = row0) as -> by (apply Hsame; [exact Hrow|exact Hpk]).
    split; [reflexivity|].
    intros now' req' Hreq'. split; [|split].
    + destruct (used_token_invalid now' _ _ _ Hrow Hused) as [H|H]; eauto.
    + apply (used_token_rejects now' _ req' row0); [rewrite Hreq'; exact Hrow|exact Hused].
    + intros parent_id.
      destruct (post_reply now' parent_id req' (run history db1)) as [r d] eqn:Hr.
      apply post_reply_cases in Hr as [[Hc ->]|[Hr _]]; [auto|].
      destruct (used_token_rejects now' (run history db1)
                  (with_parent req' (Some parent_id)) row0) as [errors He].
      { cbn. rewrite Hreq'. exact Hrow. }
      { exact Hused. }
      rewrite He in Hr. injection Hr as <- <-. auto.
Qed.

(** after the CAPTCHA was issued: a root comment, a sweep, an expiry
    clean-up that is too early to delete the token, and a like *)
Definition sample_later_history : list (Z * op) :=
  [ (7, DetectAndModerateSpam); (8, CleanupExpiredCaptchas);
    (9, PostLike 1 sample_meta) ].

Lemma captcha_token_single_use_witness :
  exists captcha,
    captchas db_one_token !! "Zx81" = Some captcha
    /\ used_at captcha = None
    /\ solution captcha = "7"
    /\ captchas (snd (post_comment 5 (sample_request "Zx81" "7" None) db_one_token))
         !! "Zx81" = Some (set_used_at 5 captcha)
    /\ forall history row,
         captchas (run history
                     (snd (post_comment 5 (sample_request "Zx81" "7" None) db_one_token)))
           !! "Zx81" = Some row ->
         captcha_pk row = captcha_pk captcha ->
         used_at row = Some 5
         /\ forall now' req',
              captcha_token req' = "Zx81" ->
              (exists e, validate_captcha_token now'
                           (run history
                              (snd (post_comment 5 (sample_request "Zx81" "7" None)
                                      db_one_token))) "Zx81" = Invalid e)
              /\ (exists errors,
                    post_comment now' req'
                      (run history
                         (snd (post_comment 5 (sample_request "Zx81" "7" None)
                                 db_one_token)))
                    = (BadRequest errors,
                       run history
                         (snd (post_comment 5 (sample_request "Zx81" "7" None)
                                 db_one_token))))
              /\ (forall parent_id,
                    is_created
                      (fst (post_reply now' parent_id req'
                              (run history
                                 (snd (post_comment 5 (sample_request "Zx81" "7" None)
                                         db_one_token)))))
                    = false
                    /\ snd (post_reply now' parent_id req'
                              (run history
                                 (snd (post_comment 5 (sample_request "Zx81" "7" None)
                                         db_one_token))))
                       = run history
                           (snd (post_comment 5 (sample_request "Zx81" "7" None)
                                   db_one_token))).
Proof.
  apply (captcha_token_single_use 5 (sample_request "Zx81" "7" None) db_one_token
           sample_root).
  - apply (captcha_ids_fresh_run [(0, GenerateCaptcha 3 4 "Zx81" sample_meta)] empty_db).
    apply captcha_ids_fresh_empty.
  - reflexivity.
Defined.

Example single_use_ex :
  let db1 := snd (post_comment 5 (sample_request "Zx81" "7" None) db_one_token) in
  let db2 := run sample_later_history db1 in
  option_map used_at (captchas db2 !! "Zx81") = Some (Some 5)
  /\ fst (post_comment 10 (sample_request "Zx81" "7" None) db2)
     = BadRequest [CaptchaUsed]
  /\ fst (post_reply 10 1 (sample_request "Zx81" "7" None) db2)
     = BadRequest [CaptchaUsed].
Proof. repeat split. Qed.

(** *** The thread structure *)

(** an update that touches neither the key nor the parent of a row *)
Definition keeps_tree (g : Comment -> Comment) : Prop :=
  forall c, pk (g c) = pk c /\ parent (g c) = parent c.

Lemma keeps_tree_id : keeps_tree (fun c => c).
Proof. intros c. auto. Qed.

Lemma keeps_tree_compose g h : keeps_tree g -> keeps_tree h -> keeps_tree (fun c => h (g c)).
Proof.
  intros Hg Hh c. destruct (Hg c) as [<- <-]. apply Hh.
Qed.

Lemma keeps_tree_update f i :
  keeps_tree f -> keeps_tree (fun c => if (pk c =? i)%nat then f c else c).
Proof.
  intros Hf c. destruct (pk c =? i)%nat; [apply Hf|auto].
Qed.

Lemma keeps_tree_set_replies_count n : keeps_tree (set_replies_count n).
Proof. intros c. auto. Qed.

Lemma keeps_tree_set_likes_count n : keeps_tree (set_likes_count n).
Proof. intros c. auto. Qed.

Lemma keeps_tree_hide u now : keeps_tree (hide u now).
Proof. intros c. auto. Qed.

Lemma keeps_tree_auto_moderate now : keeps_tree (auto_moderate now).
Proof.
  intros c. unfold auto_moderate.
  destruct (recent_unmoderated now c && Spam.Qgtb (spam_score_of c) (inject_Z 80)); auto.
Qed.

Lemma get_comment_map g cs i :
  keeps_tree g -> get_comment (List.map g cs) i = option_map g (get_comment cs i).
Proof.
  intros Hg. unfold get_comment.
  induction cs as [|c cs IH]; cbn; [reflexivity|].
  destruct (Hg c) as [-> _].
  destruct (pk c =? i)%nat; [reflexivity|exact IH].
Qed.

Lemma get_comment_Some cs i row :
  get_comment cs i = Some row -> In row cs /\ pk row = i.
Proof.
  unfold get_comment. intros H. apply find_some in H as [Hin Hpk].
  apply Nat.eqb_eq in Hpk. auto.
Qed.

Lemma get_comment_app_l cs extra i row :
  get_comment cs i = Some row -> get_comment (cs ++ extra) i = Some row.
Proof.
  unfold get_comment. induction cs as [|c cs IH]; cbn; [discriminate|].
  destruct (pk c =? i)%nat; [auto|exact IH].
Qed.

Lemma depth_loop_map g fuel cs :
  keeps_tree g ->
  forall p d, depth_loop fuel (List.map g cs) p d = depth_loop fuel cs p d.
Proof.
  intros Hg. induction fuel as [|k IH]; intros [p|] d; cbn; try reflexivity.
  rewrite (get_comment_map g cs p Hg).
  destruct (get_comment cs p) as [row|]; cbn; [|reflexivity].
  destruct (Hg row) as [_ ->]. apply IH.
Qed.

Lemma depth_loop_more_fuel cs fuel :
  forall p d r, depth_loop fuel cs p d = Some r ->
                forall fuel', (fuel <= fuel')%nat -> depth_loop fuel' cs p d = Some r.
Proof.
  induction fuel as [|k IH]; intros [p|] d r H fuel' Hle; cbn in H.
  - discriminate.
  - destruct fuel'; exact H.
  - destruct fuel' as [|k']; [lia|]. cbn.
    destruct (get_comment cs p) as [row|]; [|discriminate].
    apply (IH _ _ _ H). lia.
  - destruct fuel'; exact H.
Qed.

Lemma depth_loop_app_l cs extra fuel :
  forall p d r, depth_loop fuel cs p d = Some r ->
                depth_loop fuel (cs ++ extra) p d = Some r.
Proof.
  induction fuel as [|k IH]; intros [p|] d r H; cbn in *; try assumption.
  destruct (get_comment cs p) as [row|] eqn:Hrow; [|discriminate].
  rewrite (get_comment_app_l cs extra p row Hrow). apply IH, H.
Qed.

Lemma depth_loop_shift cs fuel :
  forall p d, depth_loop fuel cs p (S d) = option_map S (depth_loop fuel cs p d).
Proof.
  induction fuel as [|k IH]; intros [p|] d; cbn; try reflexivity.
  destruct (get_comment cs p) as [row|]; [apply IH|reflexivity].
Qed.

(** rows are numbered 1, 2, ... in the order of their creation, and a
    parent is older than its replies *)
Definition wf_rows (cs : list Comment) : Prop :=
  List.map pk cs = seq 1 (length cs)
  /\ forall c p, In c cs -> parent c = Some p -> (1 <= p < pk c)%nat.

(** the walk up from every stored comment ends, after at most 3 steps *)
Definition depths_bounded (cs : list Comment) : Prop :=
  forall c, In c cs -> exists d, get_depth cs c = Some d /\ (d <= 3)%nat.

Definition thread_inv (db : DB) : Prop :=
  wf_rows (comments db) /\ depths_bounded (comments db)
  /\ comment_seq db = length (comments db).

Lemma wf_rows_map g cs : keeps_tree g -> wf_rows cs -> wf_rows (List.map g cs).
Proof.
  intros Hg [Hpk Hpar]. split.
  - rewrite length_map, List.map_map, <- Hpk.
    apply List.map_ext. intros c. apply Hg.
  - intros c' p Hin Hp. apply in_map_iff in Hin as (c & <- & Hin).
    destruct (Hg c) as [-> Hsame]. rewrite Hsame in Hp. eauto.
Qed.

Lemma depths_bounded_map g cs :
  keeps_tree g -> depths_bounded cs -> depths_bounded (List.map g cs).
Proof.
  intros Hg Hd c' Hin. apply in_map_iff in Hin as (c & <- & Hin).
  destruct (Hd c Hin) as (d & Hdepth & Hle). exists d. split; [|exact Hle].
  unfold get_depth in *. rewrite length_map, (depth_loop_map g _ cs Hg).
  destruct (Hg c) as [_ ->]. exact Hdepth.
Qed.

Lemma wf_rows_pk_range cs c : wf_rows cs -> In c cs -> (1 <= pk c <= length cs)%nat.
Proof.
  intros [Hpk _] Hin.
  assert (H : In (pk c) (seq 1 (length cs))) by (rewrite <- Hpk; apply in_map, Hin).
  apply in_seq in H. lia.
Qed.

Lemma wf_rows_snoc cs new :
  wf_rows cs -> pk new = S (length cs) ->
  (forall p, parent new = Some p -> exists row, get_comment cs p = Some row) ->
  wf_rows (cs ++ [new]).
Proof.
  intros Hwf Hnew Hparent. pose proof Hwf as [Hpk Hpar]. split.
  - rewrite List.map_app, length_app, Hpk. cbn [List.map length].
    rewrite Hnew, Nat.add_1_r, seq_S. reflexivity.
  - intros c p Hin Hp. apply in_app_or in Hin as [Hin|[<-|[]]]; [eauto|].
    destruct (Hparent p Hp) as [row Hrow].
    apply get_comment_Some in Hrow as [Hin <-].
    pose proof (wf_rows_pk_range cs row Hwf Hin). lia.
Qed.

Lemma depths_bounded_snoc cs new :
  depths_bounded cs ->
  (forall p, parent new = Some p ->
             exists row, get_comment cs p = Some row /\ can_reply cs row = Some true) ->
  depths_bounded (cs ++ [new]).
Proof.
  intros Hd Hparent c Hin. unfold get_depth.
  rewrite length_app, Nat.add_1_r.
  apply in_app_or in Hin as [Hin|[<-|[]]].
  - destruct (Hd c Hin) as (d & Hdepth & Hle). exists d. split; [|exact Hle].
    apply (depth_loop_more_fuel _ (length cs)); [|lia].
    apply depth_loop_app_l, Hdepth.
  - destruct (parent new) as [p|] eqn:Hp.
    + destruct (Hparent p eq_refl) as (row & Hrow & Hcan).
      unfold can_reply, get_depth in Hcan.
      destruct (depth_loop (length cs) cs (parent row) 0) as [d|] eqn:Hdepth;
        [|discriminate].
      injection Hcan as Hlt. apply Nat.ltb_lt in Hlt.
      exists (S d). split; [|lia]. cbn [depth_loop].
      rewrite (get_comment_app_l cs [new] p row Hrow), depth_loop_shift.
      rewrite (depth_loop_app_l cs [new] _ _ _ _ Hdepth). reflexivity.
    + exists 0%nat. split; [reflexivity|lia].
Qed.

(** how one operation can change the comment table *)
Inductive comments_change (db db' : DB) : Prop :=
| tree_kept g :
    keeps_tree g -> comments db' = List.map g (comments db) ->
    comment_seq db' = comment_seq db -> comments_change db db'
| reply_added g new :
    keeps_tree g -> pk new = S (comment_seq db) ->
    (forall p, parent new = Some p ->
               exists row, get_comment (comments db) p = Some row
                           /\ can_reply (comments db) row = Some true) ->
    comments db' = List.map g (comments db ++ [new]) ->
    comment_seq db' = S (comment_seq db) -> comments_change db db'.

Lemma thread_inv_change db db' :
  comments_change db db' -> thread_inv db -> thread_inv db'.
Proof.
  intros Hch (Hwf & Hd & Hseq). unfold thread_inv.
  destruct Hch as [g Hg -> ->|g new Hg Hpk Hparent -> ->].
  - split; [|split].
    + apply wf_rows_map; assumption.
    + apply depths_bounded_map; assumption.
    + rewrite length_map. exact Hseq.
  - split; [|split].
    + apply wf_rows_map; [exact Hg|]. apply wf_rows_snoc; [exact Hwf|congruence|].
      intros p Hp. destruct (Hparent p Hp) as (row & Hrow & _). eauto.
    + apply depths_bounded_map; [exact Hg|]. apply depths_bounded_snoc; assumption.
    + rewrite length_map, length_app, Hseq. cbn. lia.
Qed.

Lemma thread_inv_empty : thread_inv empty_db.
Proof.
  split; [|split]; cbn.
  - split; [reflexivity|]. intros c p [].
  - intros c [].
  - reflexivity.
Qed.

Lemma validate_ok_parent db req :
  validate db req = Ok tt ->
  forall p, req_parent req = Some p ->
            exists row, get_comment (comments db) p = Some row
                        /\ can_reply (comments db) row = Some true.
Proof.
  unfold validate. intros H p Hp. rewrite Hp in H.
  destruct (if Py.truthy (captcha_token req) && Py.truthy (captcha_solution req)
            then _ else _) as [[]| |]; try discriminate.
  destruct (get_comment (comments db) p) as [row|]; [|discriminate].
  exists row. split; [reflexivity|].
  destruct (can_reply (comments db) row) as [[]|]; [reflexivity|discriminate..].
Qed.

Lemma serializer_create_comments now req db c db' :
  serializer_create now req db = (c, db') ->
  pk c = S (comment_seq db) /\ parent c = req_parent req
  /\ is_active c = true /\ created_at c = now
  /\ comment_seq db' = S (comment_seq db)
  /\ exists g, keeps_tree g /\ comments db' = List.map g (comments db ++ [c]).
Proof.
  unfold serializer_create. intros [= <- <-]. cbn.
  repeat (split; [reflexivity|]).
  unfold comment_post_save. cbn [parent].
  destruct (req_parent req) as [p|].
  - eexists. split; [|unfold update_comment; rewrite List.map_map; reflexivity].
    apply (keeps_tree_compose
             (fun c => if (pk c =? p)%nat then set_replies_count _ c else c)
             (fun c => if (pk c =? p)%nat then set_replies_count _ c else c));
      apply keeps_tree_update, keeps_tree_set_replies_count.
  - exists (fun c => c). split; [apply keeps_tree_id|].
    rewrite List.map_id. reflexivity.
Qed.

Lemma post_comment_comments_change now req db r db' :
  post_comment now req db = (r, db') -> comments_change db db'.
Proof.
  intros H. apply post_comment_cases in H as [[_ ->]|(c & _ & Hc & _ & Hv)].
  - apply (tree_kept db db (fun c => c)); [apply keeps_tree_id| |reflexivity].
    rewrite List.map_id. reflexivity.
  - apply serializer_create_comments in Hc
      as (Hpk & Hpar & _ & _ & Hseq & g & Hg & Hcs).
    apply (reply_added db db' g c); try assumption.
    rewrite Hpar. apply validate_ok_parent, Hv.
Qed.

Lemma comments_change_same db db' :
  comments db' = comments db -> comment_seq db' = comment_seq db ->
  comments_change db db'.
Proof.
  intros Hcs Hseq.
  apply (tree_kept db db' (fun c => c)); [apply keeps_tree_id| |exact Hseq].
  rewrite List.map_id. exact Hcs.
Qed.

Lemma comments_change_refl db : comments_change db db.
Proof. apply comments_change_same; reflexivity. Qed.

Lemma exec_comments_change now o db : comments_change db (exec now o db).
Proof.
  destruct o as [n1 n2 tok m|req|pid req|cid m|cid u| |]; cbn [exec].
  - unfold generate_captcha.
    destruct (Http.get_client_ip m); [|apply comments_change_refl].
    destruct (captchas db !! tok); apply comments_change_same; reflexivity.
  - destruct (post_comment now req db) as [r db'] eqn:H.
    eapply post_comment_comments_change, H.
  - destruct (post_reply now pid req db) as [r db'] eqn:H.
    apply post_reply_cases in H as [[_ ->]|[H _]]; [apply comments_change_refl|].
    eapply post_comment_comments_change, H.
  - unfold post_like.
    destruct (get_active_comment (comments db) cid); [|apply comments_change_refl].
    destruct (List.find _ (likes db)); [apply comments_change_refl|].
    destruct (Http.get_client_ip m); [|apply comments_change_refl].
    eapply tree_kept; [|cbn; unfold update_comment; rewrite List.map_map; reflexivity
                       |reflexivity].
    apply (keeps_tree_compose
             (fun c => if (pk c =? cid)%nat then set_likes_count _ c else c)
             (fun c => if (pk c =? cid)%nat then set_likes_count _ c else c));
      apply keeps_tree_update, keeps_tree_set_likes_count.
  - unfold mark_comment_as_spam.
    destruct (get_comment (comments db) cid); [|apply comments_change_refl].
    eapply tree_kept; [|reflexivity|reflexivity].
    apply keeps_tree_update, keeps_tree_hide.
  - eapply tree_kept; [|reflexivity|reflexivity]. apply keeps_tree_auto_moderate.
  - apply comments_change_same; reflexivity.
Qed.

Lemma thread_inv_run history :
  forall db, thread_inv db -> thread_inv (run history db).
Proof.
  induction history as [|[now o] rest IH]; intros db H; cbn [run]; [exact H|].
  apply IH. eapply thread_inv_change; [apply exec_comments_change|exact H].
Qed.

(** X1.  In every state that the operations can reach from the empty
    store, the walk up the parents of every stored comment ends, and the
    depth it counts is at most 3. *)
Lemma depth_at_most_three history c :
  In c (comments (run history empty_db)) ->
  exists d, get_depth (comments (run history empty_db)) c = Some d /\ (d <= 3)%nat.
Proof.
  intros Hin.
  destruct (thread_inv_run history empty_db thread_inv_empty) as (_ & Hd & _).
  apply Hd, Hin.
Qed.

(** *** Replies to a parent that cannot take them *)

(** X2.  For a parent at depth 3 or more both endpoints refuse: the create
    endpoint answers 400 whatever else the request holds, the reply
    endpoint creates nothing, and neither changes the store. *)
Lemma deep_parent_rejected now db p row d :
  get_comment (comments db) p = Some row ->
  get_depth (comments db) row = Some d -> (3 <= d)%nat ->
  (forall req, req_parent req = Some p ->
               exists errors, post_comment now req db = (BadRequest errors, db))
  /\ (forall req, is_created (fst (post_reply now p req db)) = false
                  /\ snd (post_reply now p req db) = db).
Proof.
  intros Hrow Hdepth Hdeep.
  assert (Hcreate : forall req, req_parent req = Some p ->
            exists errors, post_comment now req db = (BadRequest errors, db)).
  { intros req Hp. unfold post_comment.
    destruct (field_errors now db req) as [|e errs]; [|eauto].
    unfold validate. rewrite Hp, Hrow. unfold can_reply. rewrite Hdepth.
    apply Nat.ltb_ge in Hdeep. rewrite Hdeep.
    (* the solution check of [validate] answers or rejects, it never raises *)
    destruct (Py.truthy (captcha_token req) && Py.truthy (captcha_solution req));
      [|eauto].
    destruct (captchas db !! captcha_token req) as [captcha|]; [|eauto].
    destruct (negb (String.eqb (solution captcha) (captcha_solution req))); eauto. }
  split; [exact Hcreate|].
  intros req. destruct (post_reply now p req db) as [r d'] eqn:Hr.
  apply post_reply_cases in Hr as [[Hc ->]|[Hr _]]; [auto|].
  destruct (Hcreate (with_parent req (Some p)) eq_refl) as [errors He].
  rewrite He in Hr. injection Hr as <- <-. auto.
Qed.

Lemma wf_rows_pk_unique cs a b :
  wf_rows cs -> In a cs -> In b cs -> pk a = pk b -> a = b.
Proof.
  intros [Hpk _]. assert (Hnd : List.NoDup (List.map pk cs)).
  { rewrite Hpk. apply List.seq_NoDup. }
  clear Hpk. induction cs as [|c cs IH]; cbn in *; [intros []|].
  apply List.NoDup_cons_iff in Hnd as [Hnotin Hnd].
  intros [<-|Ha] [<-|Hb] Heq.
  - reflexivity.
  - exfalso. apply Hnotin. rewrite Heq. apply in_map, Hb.
  - exfalso. apply Hnotin. rewrite <- Heq. apply in_map, Ha.
  - apply IH; assumption.
Qed.

(** the reply endpoint answers 404 for a hidden parent *)
Lemma hidden_parent_reply_not_found now db p row req :
  thread_inv db ->
  get_comment (comments db) p = Some row -> is_active row = false ->
  post_reply now p req db = (NotFound, db).
Proof.
  intros (Hwf & _ & _) Hrow Hhidden. unfold post_reply.
  destruct (get_active_comment (comments db) p) as [c|] eqn:Hc; [|reflexivity].
  exfalso. unfold get_active_comment in Hc. apply find_some in Hc as [Hin Hc].
  apply andb_prop in Hc as [Hpk Hact]. apply Nat.eqb_eq in Hpk.
  apply get_comment_Some in Hrow as [Hin' Hpk'].
  assert (c = row) by (apply (wf_rows_pk_unique (comments db)); congruence).
  congruence.
Qed.

(** *** A history that hides a reply *)

(** a root comment, a reply to it, and the reply marked as spam; then a
    fresh CAPTCHA *)
Definition hidden_reply_history : list (Z * op) :=
  [ (0, GenerateCaptcha 3 4 "tokA" sample_meta);
    (1, PostComment (sample_request "tokA" "7" None));
    (2, GenerateCaptcha 5 1 "tokB" sample_meta);
    (3, PostReply 1 (sample_request "tokB" "6" None));
    (4, MarkCommentAsSpam 2 None);
    (5, GenerateCaptcha 2 2 "tokC" sample_meta) ].

Definition hidden_reply_db : DB := run hidden_reply_history empty_db.

(** C2 on the code.  Comment 2 is hidden.  The reply endpoint answers 404
    for it, but a submission to the create endpoint that names it as
    parent passes [validate], which looks at [can_reply] only, and a
    third comment is stored under the hidden one. *)
Theorem create_accepts_hidden_parent :
  option_map is_active (get_comment (comments hidden_reply_db) 2) = Some false
  /\ post_reply 6 2 (sample_request "tokC" "4" None) hidden_reply_db
     = (NotFound, hidden_reply_db)
  /\ exists c db',
       post_comment 6 (sample_request "tokC" "4" (Some 2%nat)) hidden_reply_db
       = (Created c, db')
       /\ parent c = Some 2%nat
       /\ List.map pk (comments db') = [1; 2; 3]%nat
       /\ get_depth (comments db') c = Some 2%nat.
Proof.
  split; [reflexivity|]. split; [reflexivity|].
  do 2 eexists. repeat split.
Qed.

(** *** The cached counters *)

Lemma get_comment_update f i cs :
  (forall c, pk (f c) = pk c) ->
  get_comment (update_comment f i cs) i = option_map f (get_comment cs i).
Proof.
  intros Hf. unfold get_comment, update_comment.
  induction cs as [|c cs IH]; cbn; [reflexivity|].
  destruct (pk c =? i)%nat eqn:E.
  - rewrite Hf, E. reflexivity.
  - rewrite E. exact IH.
Qed.

Lemma replies_length_map g cs p :
  keeps_tree g -> length (replies (List.map g cs) p) = length (replies cs p).
Proof.
  intros Hg. unfold replies.
  induction cs as [|c cs IH]; cbn [List.map List.filter]; [reflexivity|].
  assert (Hsame : is_reply_to p (g c) = is_reply_to p c).
  { unfold is_reply_to. destruct (Hg c) as [_ ->]. reflexivity. }
  rewrite Hsame. destruct (is_reply_to p c); cbn [length]; [f_equal|]; exact IH.
Qed.

(** X4.  What [create] leaves in the parent is the number of all its
    replies, hidden ones included: the recount of the serializer, which
    does not filter on [is_active], is the last to write. *)
Lemma create_counts_all_replies now req db c db' p :
  post_comment now req db = (Created c, db') ->
  req_parent req = Some p ->
  exists row,
    get_comment (comments db') p = Some row
    /\ replies_count row = length (replies (comments db') p).
Proof.
  intros Hpost Hp.
  apply post_comment_cases in Hpost as [[Hc _]|(c' & [= <-] & Hc & _ & Hv)];
    [discriminate|].
  destruct (validate_ok_parent db req Hv p Hp) as (row & Hrow & _).
  unfold serializer_create in Hc. injection Hc as <- <-. cbn [comments parent].
  rewrite Hp. cbv beta iota.
  set (cs1 := (comments db ++ [_])%list).
  set (cs2 := update_comment _ p cs1).
  eexists. split.
  - rewrite get_comment_update by reflexivity.
    assert (Hrow2 : get_comment cs2 p
                    = Some (set_replies_count
                              (length (List.filter is_active (replies cs1 p))) row)).
    { unfold cs2. rewrite get_comment_update by reflexivity.
      unfold cs1. rewrite (get_comment_app_l _ _ _ _ Hrow). reflexivity. }
    rewrite Hrow2. reflexivity.
  - cbn [option_map set_replies_count replies_count].
    unfold update_comment at 1.
    rewrite replies_length_map;
      [reflexivity|apply keeps_tree_update, keeps_tree_set_replies_count].
Qed.

Lemma get_active_comment_exists cs i row :
  get_active_comment cs i = Some row -> exists row', get_comment cs i = Some row'.
Proof.
  unfold get_active_comment, get_comment.
  induction cs as [|c cs IH]; cbn; [discriminate|].
  destruct (pk c =? i)%nat; cbn; [eauto|exact IH].
Qed.

(** X6.  A like that is accepted leaves in the comment the number of its
    like rows; a like has no [is_active] column in this app. *)
Lemma like_counts_all_likes now comment_id m db l db' :
  post_like now comment_id m db = (LikeCreated l, db') ->
  exists row,
    get_comment (comments db') comment_id = Some row
    /\ likes_count row = length (likes_of (likes db') comment_id).
Proof.
  unfold post_like.
  destruct (get_active_comment (comments db) comment_id) as [c|] eqn:Hc;
    [|discriminate].
  destruct (List.find _ (likes db)); [discriminate|].
  destruct (Http.get_client_ip m) as [ip|]; [|discriminate].
  intros [= <- <-]. cbn [comments likes].
  destruct (get_active_comment_exists _ _ _ Hc) as [row Hrow].
  rewrite !get_comment_update by reflexivity. rewrite Hrow.
  eexists. split; reflexivity.
Qed.

(** hiding a comment writes to that comment only: the counter of its
    parent keeps the value it had *)
Lemma mark_comment_as_spam_keeps_other_rows now i u db j :
  i <> j ->
  get_comment (comments (snd (mark_comment_as_spam now i u db))) j
  = get_comment (comments db) j.
Proof.
  intros Hne. unfold mark_comment_as_spam.
  destruct (get_comment (comments db) i); [|reflexivity]. cbn.
  unfold get_comment, update_comment.
  induction (comments db) as [|row rows IH]; cbn; [reflexivity|].
  destruct (pk row =? i)%nat eqn:E.
  - cbn. apply Nat.eqb_eq in E. rewrite E.
    destruct (i =? j)%nat eqn:E'; [apply Nat.eqb_eq in E'; contradiction|exact IH].
  - destruct (pk row =? j)%nat; [reflexivity|exact IH].
Qed.

(** C1 on the code.  After the reply (comment 2) to the root (comment 1)
    has been stored, the counter of the root is right: 1 reply, 1 active.
    After the reply has been marked as spam the counter still says 1,
    with no active reply left; and after one more reply it says 2, with
    one active reply. *)
Theorem replies_count_counts_hidden_replies :
  let active_replies db :=
    length (List.filter is_active (replies (comments db) 1)) in
  let cached db := option_map replies_count (get_comment (comments db) 1) in
  let db_replied := run (firstn 4 hidden_reply_history) empty_db in
  let db_hidden := run (firstn 5 hidden_reply_history) empty_db in
  let db_again :=
    snd (post_reply 6 1 (sample_request "tokC" "4" None) hidden_reply_db) in
  (cached db_replied = Some 1%nat /\ active_replies db_replied = 1%nat)
  /\ (cached db_hidden = Some 1%nat /\ active_replies db_hidden = 0%nat)
  /\ (cached db_again = Some 2%nat /\ active_replies db_again = 1%nat).
Proof. cbv zeta. repeat split. Qed.

(** *** Auto-moderation of an upper-case comment *)

Lemma auto_moderate_low_score now c v :
  (spam_score_of c == v)%Q -> (v <= inject_Z 80)%Q -> auto_moderate now c = c.
Proof.
  intros Hscore Hlow. unfold auto_moderate, Spam.Qgtb.
  assert (H : Qle_bool (spam_score_of c) (inject_Z 80) = true).
  { apply Qle_bool_iff. rewrite Hscore. exact Hlow. }
  rewrite H. cbn. rewrite andb_false_r. reflexivity.
Qed.

(** C7, as the code has it.  For a comment text that consists entirely
    of upper-case characters and contains, in its lower-cased form, the
    keyword "viagra" (and no other keyword of the list) and exactly 3
    occurrences of "http": the score counts no URL at all, because
    [count('http')] reads the text as submitted, and is 45, or 55 when
    the text is longer than 2000 characters; the sweep leaves such a
    comment as it is, still active, because the score does not exceed
    80. *)
Theorem uppercase_viagra_scenario_score :
  forall comment_text : string,
    Py.all_chars Py.isupper comment_text = true ->
    Spam.keywords_in (Py.lower comment_text) = ["viagra"] ->
    Py.count (Py.lower comment_text) "http" = 3%nat ->
    forall (name mail : string) (ip : option string),
      Py.count comment_text "http" = 0%nat
      /\ (Spam.get_spam_score comment_text name mail ip
          == (if (2000 <? Py.len comment_text)%nat
              then inject_Z 55 else inject_Z 45))%Q
      /\ forall now db c,
           In c (comments db) -> text c = comment_text -> is_active c = true ->
           In c (comments (snd (detect_and_moderate_spam now db))).
Proof.
  intros txt Hup Hkw Hhttp name mail ip.
  assert (Hlen : (10 <= Py.len txt)%nat).
  { pose proof (Spam.count_room (Py.lower txt) "http") as H.
    rewrite Hhttp, Spam.len_lower in H. cbn in H. lia. }
  split; [apply (Spam.count_http_upper txt Hup 0)|].
  split; [apply (Spam.uppercase_one_keyword_score _ _ _ _ "viagra"); assumption|].
  intros now db c Hin Htext Hactive. cbn [detect_and_moderate_spam snd with_comments comments].
  apply in_map_iff. exists c. split; [|exact Hin].
  apply (auto_moderate_low_score now c
           (if (2000 <? Py.len txt)%nat then inject_Z 55 else inject_Z 45)).
  - unfold spam_score_of. rewrite Htext.
    apply (Spam.uppercase_one_keyword_score _ _ _ _ "viagra"); assumption.
  - destruct (2000 <? Py.len txt)%nat; discriminate.
Qed.

(** an upper-case comment with "VIAGRA" and three "HTTP" in it *)
Definition shouting_text : string := "VIAGRAHTTPHTTPHTTP".

Definition shouting_comment : Comment :=
  mkComment 1 "bob" "bob@example.org" shouting_text None 0 (Some "10.0.0.9")
    true false None None 0 0.

Definition shouting_db : DB := mkDB [shouting_comment] 1 [] 0 ∅ 0.

Lemma uppercase_viagra_scenario_score_witness :
  Py.count shouting_text "http" = 0%nat
  /\ (Spam.get_spam_score shouting_text "bob" "bob@example.org" None
      == (if (2000 <? Py.len shouting_text)%nat then inject_Z 55 else inject_Z 45))%Q
  /\ forall now db c,
       In c (comments db) -> text c = shouting_text -> is_active c = true ->
       In c (comments (snd (detect_and_moderate_spam now db))).
Proof.
  apply (uppercase_viagra_scenario_score shouting_text); reflexivity.
Defined.

(** C7 as stated fails: the text is entirely upper case, contains
    "viagra" and 3 times "http" once lower-cased, and yet its score is
    45, not 100, and the sweep leaves the comment active. *)
Lemma uppercase_viagra_scenario_counterexample :
  Py.all_chars Py.isupper shouting_text = true
  /\ Py.contains "viagra" (Py.lower shouting_text) = true
  /\ Py.count (Py.lower shouting_text) "http" = 3%nat
  /\ ~ (Spam.get_spam_score shouting_text "bob" "bob@example.org" (Some "10.0.0.9")
        == inject_Z 100)%Q
  /\ fst (detect_and_moderate_spam 10 shouting_db) = 0%nat
  /\ List.map is_active (comments (snd (detect_and_moderate_spam 10 shouting_db)))
     = [true].
Proof.
  repeat split.
  intros H. vm_compute in H. discriminate H.
Qed.

(** *** Further properties of the store *)

Lemma hidden_not_active db i row :
  thread_inv db ->
  get_comment (comments db) i = Some row -> is_active row = false ->
  get_active_comment (comments db) i = None.
Proof.
  intros (Hwf & _ & _) Hrow Hhidden.
  destruct (get_active_comment (comments db) i) as [c|] eqn:Hc; [|reflexivity].
  exfalso. unfold get_active_comment in Hc. apply find_some in Hc as [Hin Hc].
  apply andb_prop in Hc as [Hpk Hact]. apply Nat.eqb_eq in Hpk.
  apply get_comment_Some in Hrow as [Hin' Hpk'].
  assert (c = row) by (apply (wf_rows_pk_unique (comments db)); congruence).
  congruence.
Qed.

Lemma thread_inv_exec now o db : thread_inv db -> thread_inv (exec now o db).
Proof. apply thread_inv_change, exec_comments_change. Qed.

(** X3.  Once [mark_comment_as_spam] has hidden a comment, the reply
    endpoint and the like endpoint both answer 404 for it and change
    nothing. *)
Theorem hidden_comment_takes_no_reply_or_like :
  forall now i u db db1,
    thread_inv db ->
    mark_comment_as_spam now i u db = (true, db1) ->
    forall now' req m,
      post_reply now' i req db1 = (NotFound, db1)
      /\ post_like now' i m db1 = (NotFound, db1).
Proof.
  intros now i u db db1 Hinv Hmark now' req m.
  assert (Hinv1 : thread_inv db1).
  { replace db1 with (exec now (MarkCommentAsSpam i u) db)
      by (cbn [exec]; rewrite Hmark; reflexivity).
    apply thread_inv_exec, Hinv. }
  unfold mark_comment_as_spam in Hmark.
  destruct (get_comment (comments db) i) as [row|] eqn:Hrow; [|discriminate].
  injection Hmark as <-.
  assert (Hrow1 : get_comment (comments (with_comments db
             (update_comment (hide u now) i (comments db)) (comment_seq db))) i
           = Some (hide u now row)).
  { cbn [comments with_comments]. rewrite get_comment_update by reflexivity.
    rewrite Hrow. reflexivity. }
  pose proof (hidden_not_active _ _ _ Hinv1 Hrow1 eq_refl) as Hnone.
  split.
  - unfold post_reply. rewrite Hnone. reflexivity.
  - unfold post_like. rewrite Hnone. reflexivity.
Qed.

Lemma hidden_comment_takes_no_reply_or_like_witness :
  post_reply 5 2 (sample_request "tokC" "4" None)
    (snd (mark_comment_as_spam 4 2 None (run (firstn 4 hidden_reply_history) empty_db)))
  = (NotFound,
     snd (mark_comment_as_spam 4 2 None (run (firstn 4 hidden_reply_history) empty_db)))
  /\ post_like 5 2 sample_meta
       (snd (mark_comment_as_spam 4 2 None (run (firstn 4 hidden_reply_history) empty_db)))
     = (NotFound,
        snd (mark_comment_as_spam 4 2 None (run (firstn 4 hidden_reply_history) empty_db))).
Proof.
  apply (hidden_comment_takes_no_reply_or_like 4 2 None
           (run (firstn 4 hidden_reply_history) empty_db)).
  - apply thread_inv_run, thread_inv_empty.
  - reflexivity.
Defined.

Lemma depth_at_most_three_witness :
  exists d, get_depth (comments (run hidden_reply_history empty_db))
              (hide None 4 (mkComment 2 "Al" "al@example.org"
                              "This is a great article, thanks!" (Some 1%nat) 3
                              (Some "10.0.0.1") true false None None 0 0))
            = Some d /\ (d <= 3)%nat.
Proof.
  apply (depth_at_most_three hidden_reply_history). right. left. reflexivity.
Defined.

(** a chain of four comments: the last one is at depth 3 *)
Definition deep_history : list (Z * op) :=
  [ (0, GenerateCaptcha 1 1 "tok1" sample_meta);
    (1, PostComment (sample_request "tok1" "2" None));
    (2, GenerateCaptcha 1 2 "tok2" sample_meta);
    (3, PostReply 1 (sample_request "tok2" "3" None));
    (4, GenerateCaptcha 1 3 "tok3" sample_meta);
    (5, PostReply 2 (sample_request "tok3" "4" None));
    (6, GenerateCaptcha 1 4 "tok4" sample_meta);
    (7, PostReply 3 (sample_request "tok4" "5" None));
    (8, GenerateCaptcha 1 5 "tok5" sample_meta) ].

Definition deep_db : DB := run deep_history empty_db.

Definition deepest_comment : Comment :=
  mkComment 4 "Al" "al@example.org" "This is a great article, thanks!"
    (Some 3%nat) 7 (Some "10.0.0.1") true false None None 0 0.

Example deep_db_depths :
  List.map (get_depth (comments deep_db)) (comments deep_db)
  = [Some 0; Some 1; Some 2; Some 3]%nat.
Proof. reflexivity. Qed.

Lemma deep_parent_rejected_witness :
  (forall req, req_parent req = Some 4%nat ->
               exists errors, post_comment 9 req deep_db = (BadRequest errors, deep_db))
  /\ (forall req, is_created (fst (post_reply 9 4 req deep_db)) = false
                  /\ snd (post_reply 9 4 req deep_db) = deep_db).
Proof.
  apply (deep_parent_rejected 9 deep_db 4 deepest_comment 3).
  - reflexivity.
  - reflexivity.
  - lia.
Defined.

Lemma create_counts_all_replies_witness :
  exists row,
    get_comment
      (comments (snd (post_comment 6 (sample_request "tokC" "4" (Some 1%nat))
                        hidden_reply_db))) 1
    = Some row
    /\ replies_count row
       = length (replies
                   (comments (snd (post_comment 6 (sample_request "tokC" "4" (Some 1%nat))
                                     hidden_reply_db))) 1).
Proof.
  eapply (create_counts_all_replies 6 (sample_request "tokC" "4" (Some 1%nat))
            hidden_reply_db).
  - reflexivity.
  - reflexivity.
Defined.

Lemma like_counts_all_likes_witness :
  exists row,
    get_comment (comments (snd (post_like 6 1 sample_meta hidden_reply_db))) 1 = Some row
    /\ likes_count row
       = length (likes_of (likes (snd (post_like 6 1 sample_meta hidden_reply_db))) 1).
Proof.
  eapply (like_counts_all_likes 6 1 sample_meta hidden_reply_db).
  reflexivity.
Defined.






(** X7.  A submission to the create endpoint is all or nothing.  When it is
    answered 201, the store has exactly one more comment, the row of the
    submitted CAPTCHA token has gone from unused to used at that time, and
    the likes are untouched; with any other answer the store is exactly as
    it was. *)
Theorem submission_all_or_nothing :
  forall now req db r db',
    post_comment now req db = (r, db') ->
    match r with
    | Created c =>
        length (comments db') = S (length (comments db))
        /\ pk c = S (comment_seq db)
        /\ (exists captcha,
              captchas db !! captcha_token req = Some captcha
              /\ used_at captcha = None
              /\ captchas db' = <[captcha_token req := set_used_at now captcha]> (captchas db))
        /\ likes db' = likes db
    | _ => db' = db
    end.
Proof.
  intros now req db r db' H.
  pose proof H as Hcases.
  apply post_comment_cases in Hcases as [[Hr ->]|(c & -> & Hc & Hf & Hv)].
  - destruct r; try reflexivity. discriminate.
  - apply field_errors_nil in Hf as (_ & _ & _ & Htok & _).
    apply validate_captcha_token_ok in Htok as (captcha & Hget & _ & Hunused).
    destruct (serializer_create_captchas _ _ _ _ _ _ Hc Hget) as [Hcaps _].
    destruct (serializer_create_comments _ _ _ _ _ Hc)
      as (Hpk & _ & _ & _ & _ & g & Hg & Hcs).
    split; [|split; [|split]].
    + rewrite Hcs, length_map, length_app. cbn. lia.
    + exact Hpk.
    + exists captcha. auto.
    + unfold serializer_create in Hc. injection Hc as _ <-. reflexivity.
Qed.

Lemma submission_all_or_nothing_witness :
  snd (post_comment 6 (sample_request "tokC" "5" None) hidden_reply_db) = hidden_reply_db.
Proof.
  exact (submission_all_or_nothing 6 (sample_request "tokC" "5" None) hidden_reply_db
           (BadRequest [IncorrectCaptchaSolution])
           (snd (post_comment 6 (sample_request "tokC" "5" None) hidden_reply_db))
           eq_refl).
Defined.

Lemma depth_loop_root fuel cs d : depth_loop fuel cs None d = Some d.
Proof. destruct fuel; reflexivity. Qed.

Lemma str_truthy n : Py.truthy (Py.str n) = true.
Proof.
  unfold Py.truthy, Py.str.
  assert (H : Nat.to_uint n <> Decimal.Nil).
  { rewrite <- (DecimalNat.Unsigned.of_to n) at 1.
    rewrite DecimalNat.Unsigned.to_of. apply DecimalFacts.unorm_nonnil. }
  destruct (Nat.to_uint n); try reflexivity. contradiction.
Qed.

(** X8.  A CAPTCHA that has just been issued lets a comment in: a
    submission within ten minutes that carries the token and the decimal
    sum of the two numbers, with valid fields and no parent, is answered
    201; the comment is active, a root at depth 0, with both counters at
    0, and it is the one row added to the table. *)
Theorem fresh_captcha_admits_comment :
  forall now num1 num2 tok m db row db1,
    generate_captcha now num1 num2 tok m db = (CaptchaCreated row, db1) ->
    Py.truthy tok = true ->
    forall now' req,
      now' <= now + timedelta_minutes 10 ->
      captcha_token req = tok ->
      captcha_solution req = Py.str (num1 + num2) ->
      req_fields_valid req = true ->
      req_parent req = None ->
      exists c db2,
        post_comment now' req db1 = (Created c, db2)
        /\ is_active c = true /\ parent c = None
        /\ get_depth (comments db2) c = Some 0%nat
        /\ replies_count c = 0%nat /\ likes_count c = 0%nat
        /\ comments db2 = (comments db ++ [c])%list.
Proof.
  intros now n1 n2 tok m db row db1 Hgen Htok now' req Hlive Hreq Hsol Hfields Hroot.
  unfold generate_captcha in Hgen.
  destruct (Http.get_client_ip m) as [ip|]; [|discriminate].
  destruct (captchas db !! tok) eqn:Hfree; [discriminate|].
  injection Hgen as <- <-.
  unfold post_comment, field_errors, validate, validate_captcha_token.
  rewrite Hfields, Hroot, Hreq, Hsol, Htok, str_truthy.
  cbn [captchas with_captchas]. rewrite lookup_insert_eq.
  unfold is_expired, is_used. cbn [captcha_created_at used_at solution].
  assert (Hnot : (now + timedelta_minutes 10 <? now') = false) by (apply Z.ltb_ge; lia).
  rewrite Hnot, String.eqb_refl. cbn [app negb andb].
  unfold serializer_create. rewrite Hroot, Hreq. cbn [captchas with_captchas comments].
  rewrite lookup_insert_eq. cbn [comment_post_save parent].
  do 2 eexists. repeat split.
  unfold get_depth. cbn [parent]. apply depth_loop_root.
Qed.

Lemma fresh_captcha_admits_comment_witness :
  exists c db2,
    post_comment 600000000 (sample_request "Zx81" "7" None) db_one_token = (Created c, db2)
    /\ is_active c = true /\ parent c = None
    /\ get_depth (comments db2) c = Some 0%nat
    /\ replies_count c = 0%nat /\ likes_count c = 0%nat
    /\ comments db2 = (comments empty_db ++ [c])%list.
Proof.
  eapply (fresh_captcha_admits_comment 0 3 4 "Zx81" sample_meta empty_db);
    first [reflexivity | discriminate].
Defined.

(** X9.  A wrong solution does not burn the token: when every field of a
    submission passes its own check but the solution differs from the
    stored one, the answer is 400 with "incorrect solution" alone, and the
    store, the token row included, is as it was, so the same token can be
    tried again. *)
Theorem wrong_solution_keeps_token :
  forall now req db captcha,
    field_errors now db req = [] ->
    captchas db !! captcha_token req = Some captcha ->
    solution captcha <> captcha_solution req ->
    post_comment now req db = (BadRequest [IncorrectCaptchaSolution], db)
    /\ validate_captcha_token now db (captcha_token req) = Ok (captcha_token req).
Proof.
  intros now req db captcha Hf Hget Hwrong.
  pose proof (field_errors_nil _ _ _ Hf) as (_ & Htok & Hsol & Hv & _).
  split; [|exact Hv].
  unfold post_comment. rewrite Hf. unfold validate.
  rewrite Htok, Hsol, Hget. cbn [andb].
  apply String.eqb_neq in Hwrong. rewrite Hwrong. reflexivity.
Qed.

Lemma wrong_solution_keeps_token_witness :
  post_comment 5 (sample_request "Zx81" "8" None) db_one_token
  = (BadRequest [IncorrectCaptchaSolution], db_one_token)
  /\ validate_captcha_token 5 db_one_token "Zx81" = Ok "Zx81".
Proof.
  apply (wrong_solution_keeps_token 5 (sample_request "Zx81" "8" None) db_one_token
           sample_token).
  - reflexivity.
  - reflexivity.
  - discriminate.
Defined.

(** X10.  The clean-up of CAPTCHA tokens only removes tokens that have
    expired: at the time of the clean-up the answer of the field validator
    for any token is what it was, except that a token it reported as
    expired may now be unknown.  A second clean-up at the same time
    removes nothing more. *)
Theorem cleanup_removes_expired_only :
  forall now db,
    (forall tok,
        validate_captcha_token now (cleanup_expired_captchas now db) tok
        = validate_captcha_token now db tok
        \/ (validate_captcha_token now db tok = Invalid CaptchaExpired
            /\ validate_captcha_token now (cleanup_expired_captchas now db) tok
               = Invalid InvalidCaptchaToken))
    /\ cleanup_expired_captchas now (cleanup_expired_captchas now db)
       = cleanup_expired_captchas now db.
Proof.
  intros now db. split.
  - intros tok. unfold validate_captcha_token, cleanup_expired_captchas.
    cbn [captchas with_captchas]. rewrite map_lookup_filter.
    destruct (captchas db !! tok) as [captcha|]; cbn; [|left; reflexivity].
    case_guard as Hkeep; cbn [captcha_created_at snd] in *; [left; reflexivity|].
    right. unfold is_expired.
    assert (H : (captcha_created_at captcha + timedelta_minutes 10 <? now) = true).
    { apply Z.ltb_lt. unfold timedelta_minutes, timedelta_hours in *. lia. }
    rewrite H. auto.
  - unfold cleanup_expired_captchas, with_captchas. cbn [captchas comments
      comment_seq likes like_seq captcha_seq]. f_equal.
    apply map_filter_id. intros tok captcha H.
    apply map_lookup_filter_Some in H as [_ H]. exact H.
Qed.

Lemma flagged_after_sweep now now2 c :
  now <= now2 ->
  recent_unmoderated now2 (auto_moderate now c)
  && Spam.Qgtb (spam_score_of (auto_moderate now c)) (inject_Z 80) = false.
Proof.
  intros Hlater. unfold auto_moderate.
  destruct (recent_unmoderated now c && Spam.Qgtb (spam_score_of c) (inject_Z 80))
    eqn:Hflag; [reflexivity|].
  destruct (recent_unmoderated now2 c) eqn:H2; [|reflexivity].
  assert (H1 : recent_unmoderated now c = true).
  { unfold recent_unmoderated in *.
    apply andb_prop in H2 as [H2 Hrecent]. rewrite H2. cbn [andb].
    apply Z.leb_le in Hrecent. apply Z.leb_le. lia. }
  rewrite H1 in Hflag. exact Hflag.
Qed.

(** X11.  The spam sweep is repeatable: a sweep run again, at the same or
    at any later time, on the table that a sweep has left moderates no
    comment and changes none. *)
Theorem sweep_again_changes_nothing :
  forall now now2 db,
    now <= now2 ->
    detect_and_moderate_spam now2 (snd (detect_and_moderate_spam now db))
    = (0%nat, snd (detect_and_moderate_spam now db)).
Proof.
  intros now now2 db Hlater. unfold detect_and_moderate_spam.
  cbn [snd comments with_comments comment_seq likes like_seq captchas captcha_seq].
  f_equal.
  - induction (comments db) as [|c cs IH]; cbn [List.map List.filter]; [reflexivity|].
    rewrite (flagged_after_sweep now now2 c Hlater). exact IH.
  - unfold with_comments. cbn [comments comment_seq likes like_seq captchas captcha_seq].
    f_equal. rewrite List.map_map. apply List.map_ext. intros c.
    pose proof (flagged_after_sweep now now2 c Hlater) as H.
    unfold auto_moderate at 1. rewrite H. reflexivity.
Qed.

Lemma sweep_again_changes_nothing_witness :
  detect_and_moderate_spam 20 (snd (detect_and_moderate_spam 10 shouting_db))
  = (0%nat, snd (detect_and_moderate_spam 10 shouting_db)).
Proof.
  apply (sweep_again_changes_nothing 10 20 shouting_db). discriminate.
Defined.

(** an update that keeps key, parent and text of a row and does not make a
    hidden row visible *)
Definition only_moderates (g : Comment -> Comment) : Prop :=
  forall c, pk (g c) = pk c /\ parent (g c) = parent c /\ text (g c) = text c
            /\ (is_active c = false -> is_active (g c) = false).

Lemma only_moderates_id : only_moderates (fun c => c).
Proof. intros c. auto. Qed.

Lemma only_moderates_compose g h :
  only_moderates g -> only_moderates h -> only_moderates (fun c => h (g c)).
Proof.
  intros Hg Hh c. destruct (Hg c) as (<- & <- & <- & Hga).
  destruct (Hh (g c)) as (? & ? & ? & Hha). repeat split; auto.
Qed.

Lemma only_moderates_update f i :
  only_moderates f -> only_moderates (fun c => if (pk c =? i)%nat then f c else c).
Proof. intros Hf c. destruct (pk c =? i)%nat; [apply Hf|auto]. Qed.

Lemma only_moderates_set_replies_count n : only_moderates (set_replies_count n).
Proof. intros c. auto. Qed.

Lemma only_moderates_set_likes_count n : only_moderates (set_likes_count n).
Proof. intros c. auto. Qed.

Lemma only_moderates_hide u now : only_moderates (hide u now).
Proof. intros c. auto. Qed.

Lemma only_moderates_auto_moderate now : only_moderates (auto_moderate now).
Proof.
  intros c. unfold auto_moderate.
  destruct (recent_unmoderated now c && Spam.Qgtb (spam_score_of c) (inject_Z 80));
    [apply only_moderates_hide|auto].
Qed.

Lemma only_moderates_keeps_tree g : only_moderates g -> keeps_tree g.
Proof. intros Hg c. destruct (Hg c) as (? & ? & _). auto. Qed.

(** every operation maps the old rows one by one and may add rows at the
    end *)
Lemma post_comment_rows now req db r db' :
  post_comment now req db = (r, db') ->
  exists g extra, only_moderates g
                  /\ comments db' = List.map g (comments db ++ extra).
Proof.
  intros H. apply post_comment_cases in H as [[_ ->]|(c & _ & Hc & _ & _)].
  - exists (fun c => c), []. split; [apply only_moderates_id|].
    rewrite List.map_id, app_nil_r. reflexivity.
  - unfold serializer_create in Hc. injection Hc as _ <-. cbn [comments].
    unfold comment_post_save. cbn [parent].
    destruct (req_parent req) as [p|].
    + eexists _, _. split; [|unfold update_comment; rewrite List.map_map; reflexivity].
      apply (only_moderates_compose
               (fun c => if (pk c =? p)%nat then set_replies_count _ c else c)
               (fun c => if (pk c =? p)%nat then set_replies_count _ c else c));
        apply only_moderates_update, only_moderates_set_replies_count.
    + eexists (fun c => c), _. split; [apply only_moderates_id|].
      rewrite List.map_id. reflexivity.
Qed.

Lemma exec_rows now o db :
  exists g extra, only_moderates g
                  /\ comments (exec now o db) = List.map g (comments db ++ extra).
Proof.
  assert (Hsame : forall db', comments db' = comments db ->
            exists g extra, only_moderates g
                            /\ comments db' = List.map g (comments db ++ extra)).
  { intros db' ->. exists (fun c => c), []. split; [apply only_moderates_id|].
    rewrite List.map_id, app_nil_r. reflexivity. }
  destruct o as [n1 n2 tok m|req|pid req|cid m|cid u| |]; cbn [exec].
  - apply Hsame. unfold generate_captcha.
    destruct (Http.get_client_ip m); [|reflexivity].
    destruct (captchas db !! tok); reflexivity.
  - destruct (post_comment now req db) as [r db'] eqn:H.
    eapply post_comment_rows, H.
  - destruct (post_reply now pid req db) as [r db'] eqn:H.
    apply post_reply_cases in H as [[_ ->]|[H _]]; [apply Hsame; reflexivity|].
    eapply post_comment_rows, H.
  - unfold post_like.
    destruct (get_active_comment (comments db) cid); [|apply Hsame; reflexivity].
    destruct (List.find _ (likes db)); [apply Hsame; reflexivity|].
    destruct (Http.get_client_ip m); [|apply Hsame; reflexivity].
    eexists _, []. cbn [snd comments]. rewrite app_nil_r.
    split; [|unfold update_comment; rewrite List.map_map; reflexivity].
    apply (only_moderates_compose
             (fun c => if (pk c =? cid)%nat then set_likes_count _ c else c)
             (fun c => if (pk c =? cid)%nat then set_likes_count _ c else c));
      apply only_moderates_update, only_moderates_set_likes_count.
  - unfold mark_comment_as_spam.
    destruct (get_comment (comments db) cid); [|apply Hsame; reflexivity].
    eexists _, []. cbn [snd comments with_comments]. rewrite app_nil_r.
    split; [|reflexivity]. apply only_moderates_update, only_moderates_hide.
  - eexists _, []. cbn [detect_and_moderate_spam snd comments with_comments].
    rewrite app_nil_r. split; [apply only_moderates_auto_moderate|reflexivity].
  - apply Hsame. reflexivity.
Qed.

(** X12.  None of the operations of the store deletes a comment, re-parents
    it, rewrites its text or shows it again: a comment that is hidden is
    found hidden, under the same key, with the same text and parent, after
    any history of operations. *)
Theorem hidden_stays_hidden :
  forall history db i c,
    get_comment (comments db) i = Some c -> is_active c = false ->
    exists c',
      get_comment (comments (run history db)) i = Some c'
      /\ is_active c' = false /\ text c' = text c /\ parent c' = parent c.
Proof.
  induction history as [|[now o] rest IH]; intros db i c Hget Hhidden; cbn [run].
  - exists c. auto.
  - destruct (exec_rows now o db) as (g & extra & Hg & Hrows).
    destruct (Hg c) as (_ & Hpar & Htext & Hact).
    destruct (IH (exec now o db) i (g c)) as (c' & Hget' & Hhid' & Htext' & Hpar').
    + rewrite Hrows, (get_comment_map g _ i (only_moderates_keeps_tree g Hg)).
      rewrite (get_comment_app_l _ extra _ _ Hget). reflexivity.
    + apply Hact, Hhidden.
    + exists c'. repeat split; congruence.
Qed.

(** the reply of [hidden_reply_history], once hidden *)
Definition hidden_reply : Comment :=
  hide None 4 (mkComment 2 "Al" "al@example.org" "This is a great article, thanks!"
                 (Some 1%nat) 3 (Some "10.0.0.1") true false None None 0 0).

Lemma hidden_stays_hidden_witness :
  exists c',
    get_comment (comments (run sample_later_history
                             (run (firstn 5 hidden_reply_history) empty_db))) 2 = Some c'
    /\ is_active c' = false
    /\ text c' = "This is a great article, thanks!"
    /\ parent c' = Some 1%nat.
Proof.
  apply (hidden_stays_hidden sample_later_history
           (run (firstn 5 hidden_reply_history) empty_db) 2 hidden_reply).
  - reflexivity.
  - reflexivity.
Defined.

(** *** The challenge text and its column *)

(** [max_length] of [CaptchaToken.challenge] and of [CaptchaToken.solution]
    (apps/comments/models.py) *)
Definition challenge_max_length : nat := 10.
Definition solution_max_length : nat := 10.

(** the checks of X19 on the texts for one pair of numbers *)
Definition challenge_fits (num1 num2 : nat) : bool :=
  let challenge := Py.str num1 +:+ " + " +:+ Py.str num2 +:+ " = ?" in
  let solution := Py.str (num1 + num2) in
  (9 <=? Py.len challenge)%nat && (Py.len challenge <=? 11)%nat
  && Bool.eqb (challenge_max_length <? Py.len challenge)%nat
       ((num1 =? 10)%nat && (num2 =? 10)%nat)
  && (Py.len solution <=? 2)%nat.

Lemma challenge_fits_table :
  forallb (fun num1 => forallb (challenge_fits num1) (seq 1 10)) (seq 1 10) = true.
Proof. vm_compute. reflexivity. Qed.

(** X19.  The challenge text of a CAPTCHA made from two numbers between 1
    and 10 has 9 to 11 characters: it is longer than the [max_length] of
    its column, 10, exactly when both numbers are 10.  The solution has at
    most 2 characters and fits. *)
Theorem challenge_longer_than_column_for_ten_plus_ten :
  forall now num1 num2 tok m db row db1,
    (1 <= num1 <= 10)%nat -> (1 <= num2 <= 10)%nat ->
    generate_captcha now num1 num2 tok m db = (CaptchaCreated row, db1) ->
    (9 <= Py.len (challenge row) <= 11)%nat
    /\ ((challenge_max_length < Py.len (challenge row))%nat
        <-> num1 = 10%nat /\ num2 = 10%nat)
    /\ (Py.len (solution row) <= 2)%nat
    /\ (Py.len (solution row) <= solution_max_length)%nat.
Proof.
  intros now num1 num2 tok m db row db1 H1 H2. unfold generate_captcha.
  destruct (Http.get_client_ip m) as [ip|]; [|discriminate].
  destruct (captchas db !! tok); [discriminate|].
  intros H. injection H as <- _. cbn [challenge solution].
  pose proof challenge_fits_table as Htable.
  rewrite forallb_forall in Htable. specialize (Htable num1).
  rewrite forallb_forall in Htable.
  specialize (Htable ltac:(apply in_seq; lia) num2 ltac:(apply in_seq; lia)).
  unfold challenge_fits in Htable. cbv zeta in Htable.
  apply andb_true_iff in Htable as [Htable Hsol].
  apply andb_true_iff in Htable as [Htable Hlong].
  apply andb_true_iff in Htable as [Hlo Hhi].
  apply Nat.leb_le in Hsol, Hlo, Hhi. apply eqb_prop in Hlong.
  split; [lia|]. split; [|unfold solution_max_length; lia].
  rewrite <- Nat.ltb_lt, Hlong, andb_true_iff, !Nat.eqb_eq. reflexivity.
Qed.

Lemma challenge_longer_than_column_for_ten_plus_ten_witness :
  (9 <= Py.len (Py.str 10 +:+ " + " +:+ Py.str 10 +:+ " = ?") <= 11)%nat
  /\ ((challenge_max_length < Py.len (Py.str 10 +:+ " + " +:+ Py.str 10 +:+ " = ?"))%nat
      <-> 10%nat = 10%nat /\ 10%nat = 10%nat)
  /\ (Py.len (Py.str (10 + 10)) <= 2)%nat
  /\ (Py.len (Py.str (10 + 10)) <= solution_max_length)%nat.
Proof.
  apply (challenge_longer_than_column_for_ten_plus_ten 0 10 10 "Zx81" sample_meta empty_db
           (mkCaptcha 1 "Zx81" (Py.str 10 +:+ " + " +:+ Py.str 10 +:+ " = ?")
              (Py.str (10 + 10)) 0 None "10.0.0.1")
           (snd (generate_captcha 0 10 10 "Zx81" sample_meta empty_db))).
  - lia.
  - lia.
  - reflexivity.
Defined.

(** *** [Comment.get_thread_comments] (apps/comments/models.py) and
        [CommentService.get_comment_thread] (apps/comments/services.py) *)

(** [get_thread_comments] calls itself on the parent until it is at a
    comment without one; [fuel] bounds the calls. *)
Fixpoint get_thread_comments (fuel : nat) (cs : list Comment) (self : Comment)
  : option (list Comment) :=
  match parent self with
  | Some p =>
      match fuel with
      | O => None
      | S k =>
          match get_comment cs p with
          | Some row => get_thread_comments k cs row
          | None => None
          end
      end
  | None =>
      Some (List.filter (fun c => (pk c =? pk self)%nat || is_reply_to (pk self) c) cs)
  end.

(** the [while root_comment.parent:] loop of [get_comment_thread] *)
Fixpoint root_loop (fuel : nat) (cs : list Comment) (root_comment : Comment)
  : option Comment :=
  match parent root_comment with
  | Some p =>
      match fuel with
      | O => None
      | S k =>
          match get_comment cs p with
          | Some row => root_loop k cs row
          | None => None
          end
      end
  | None => Some root_comment
  end.

(** [order_by('created_at')]; rows of the same time are left in the order
    of the table *)
Fixpoint insert_by_created_at (c : Comment) (l : list Comment) : list Comment :=
  match l with
  | [] => [c]
  | x :: r =>
      if created_at c <=? created_at x then c :: l
      else x :: insert_by_created_at c r
  end.

Definition order_by_created_at (l : list Comment) : list Comment :=
  fold_right insert_by_created_at [] l.

(** What [get_comment_thread] ends in: a queryset, or the [AttributeError]
    of [models.Q]. *)
Inductive thread_outcome :=
| Thread (rows : list Comment)
| RaisedAttributeError.

(** [get_comment_thread].  In services.py [models] is bound by
    [from analytics import models], and that module has no [Q]: when the
    walk to the root is over, the first [models.Q] of the query raises
    [AttributeError], which [except Comment.DoesNotExist] does not catch.
    The filter, the [is_active] test and the [order_by] that follow are
    never reached.  [Thread []] is [Comment.objects.none()]. *)
Definition get_comment_thread (comment_id : nat) (db : DB) : option thread_outcome :=
  match get_active_comment (comments db) comment_id with
  | None => Some (Thread [])
  | Some comment =>
      match root_loop (length (comments db)) (comments db) comment with
      | Some root_comment => Some RaisedAttributeError
      | None => None
      end
  end.

(** where the walk of [get_depth] ends, the walk to the root ends *)
Lemma root_loop_depth cs fuel :
  forall c d0 d, depth_loop fuel cs (parent c) d0 = Some d ->
                 exists root, root_loop fuel cs c = Some root
                              /\ parent root = None /\ (root = c \/ In root cs).
Proof.
  induction fuel as [|k IH]; intros c d0 d H.
  - cbn in *. destruct (parent c) eqn:Hp; [discriminate|].
    exists c. auto.
  - cbn in *. destruct (parent c) as [p|] eqn:Hp; [|exists c; auto].
    destruct (get_comment cs p) as [row|] eqn:Hrow; [|discriminate].
    destruct (IH row _ _ H) as (root & Hroot & Htop & Hin).
    exists root. split; [exact Hroot|]. split; [exact Htop|]. right.
    destruct Hin as [->|Hin]; [|exact Hin]. apply (get_comment_Some _ _ _ Hrow).
Qed.

Lemma get_thread_comments_root cs fuel :
  forall c, get_thread_comments fuel cs c
            = option_map
                (fun root =>
                   List.filter (fun r => (pk r =? pk root)%nat || is_reply_to (pk root) r) cs)
                (root_loop fuel cs c).
Proof.
  induction fuel as [|k IH]; intros c; cbn.
  - destruct (parent c); reflexivity.
  - destruct (parent c); [|reflexivity].
    destruct (get_comment cs n); [apply IH|reflexivity].
Qed.

Lemma get_comment_In cs c : wf_rows cs -> In c cs -> get_comment cs (pk c) = Some c.
Proof.
  intros Hwf Hin. unfold get_comment.
  destruct (List.find (fun x => (pk x =? pk c)%nat) cs) as [x|] eqn:Hfind.
  - apply find_some in Hfind as [Hx Hpk]. apply Nat.eqb_eq in Hpk.
    f_equal. apply (wf_rows_pk_unique cs); assumption.
  - apply (find_none _ _ Hfind) in Hin. cbn in Hin. rewrite Nat.eqb_refl in Hin.
    discriminate.
Qed.

Lemma child_depth_one cs root r :
  wf_rows cs -> In root cs -> In r cs -> parent root = None ->
  is_reply_to (pk root) r = true -> get_depth cs r = Some 1%nat.
Proof.
  intros Hwf Hroot Hr Htop Hchild. unfold is_reply_to in Hchild.
  destruct (parent r) as [q|] eqn:Hq; [|discriminate]. apply Nat.eqb_eq in Hchild.
  subst q. unfold get_depth. rewrite Hq.
  destruct (length cs) as [|k] eqn:Hlen; [destruct cs; [destruct Hr|discriminate]|].
  cbn. rewrite (get_comment_In cs root Hwf Hroot), Htop. apply depth_loop_root.
Qed.

(** X20.  [get_thread_comments] lists the root of the thread and the
    replies to the root, nothing below: every comment it lists is at depth
    0 or 1, so a comment at depth 2 or 3 is not in the listing of its own
    thread.  In every state that satisfies the invariant of the store the
    walk to the root ends and the listing is made. *)
Theorem thread_listing_stops_at_replies :
  forall db c,
    thread_inv db -> In c (comments db) ->
    exists listing,
      get_thread_comments (length (comments db)) (comments db) c = Some listing
      /\ (forall r, In r listing ->
                    exists d, get_depth (comments db) r = Some d /\ (d <= 1)%nat)
      /\ (forall d, get_depth (comments db) c = Some d -> (2 <= d)%nat ->
                    ~ In c listing).
Proof.
  intros db c (Hwf & Hdepth & _) Hc.
  destruct (Hdepth c Hc) as (d & Hd & _).
  destruct (root_loop_depth _ _ _ _ _ Hd) as (root & Hroot & Htop & Hin).
  assert (Hroot_in : In root (comments db)) by (destruct Hin as [->|]; assumption).
  rewrite get_thread_comments_root, Hroot. cbn [option_map].
  eexists. split; [reflexivity|].
  assert (Hlisted : forall r,
            In r (List.filter (fun r => (pk r =? pk root)%nat || is_reply_to (pk root) r)
                    (comments db)) ->
            exists d, get_depth (comments db) r = Some d /\ (d <= 1)%nat).
  { intros r Hr. apply filter_In in Hr as [Hr Hsel].
    apply orb_true_iff in Hsel as [Hsame|Hchild].
    - apply Nat.eqb_eq in Hsame.
      assert (r = root) as -> by (apply (wf_rows_pk_unique (comments db)); assumption).
      exists 0%nat. split; [|lia]. unfold get_depth. rewrite Htop. apply depth_loop_root.
    - exists 1%nat. split; [|lia].
      apply (child_depth_one _ root); assumption. }
  split; [exact Hlisted|].
  intros d' Hd' Hdeep Hlist. destruct (Hlisted c Hlist) as (d1 & Hd1 & Hle).
  rewrite Hd' in Hd1. injection Hd1 as <-. lia.
Qed.

Lemma thread_listing_stops_at_replies_witness :
  exists listing,
    get_thread_comments (length (comments deep_db)) (comments deep_db) deepest_comment
    = Some listing
    /\ (forall r, In r listing ->
                  exists d, get_depth (comments deep_db) r = Some d /\ (d <= 1)%nat)
    /\ (forall d, get_depth (comments deep_db) deepest_comment = Some d -> (2 <= d)%nat ->
                  ~ In deepest_comment listing).
Proof.
  apply (thread_listing_stops_at_replies deep_db deepest_comment).
  - apply thread_inv_run, thread_inv_empty.
  - vm_compute. do 3 right. left. reflexivity.
Defined.

Example thread_listing_ex :
  option_map (List.map pk)
    (get_thread_comments (length (comments deep_db)) (comments deep_db) deepest_comment)
  = Some [1; 2]%nat.
Proof. vm_compute. reflexivity. Qed.

Lemma in_insert_by_created_at c x l :
  In c (insert_by_created_at x l) <-> c = x \/ In c l.
Proof.
  induction l as [|y r IH]; cbn.
  - intuition congruence.
  - destruct (created_at x <=? created_at y); cbn; [intuition congruence|].
    rewrite IH. intuition congruence.
Qed.

Lemma in_order_by_created_at c l : In c (order_by_created_at l) <-> In c l.
Proof.
  induction l as [|x r IH]; cbn; [reflexivity|].
  rewrite in_insert_by_created_at, IH. intuition congruence.
Qed.


(** a third comment, stored under the hidden comment 2 through the create
    endpoint *)
Definition orphan_db : DB :=
  run [(6, PostComment (sample_request "tokC" "4" (Some 2%nat)))] hidden_reply_db.

Definition reply_under_hidden : Comment :=
  mkComment 3 "Al" "al@example.org" "This is a great article, thanks!"
    (Some 2%nat) 6 (Some "10.0.0.1") true false None None 0 0.


(** comment 3 is active, comment 2 is hidden, and there is no comment 9 *)
Example comment_thread_ex :
  get_active_comment (comments orphan_db) 3 = Some reply_under_hidden
  /\ get_comment_thread 3 orphan_db = Some RaisedAttributeError
  /\ get_comment_thread 2 orphan_db = Some (Thread [])
  /\ get_comment_thread 9 orphan_db = Some (Thread []).
Proof. vm_compute. repeat split. Qed.

(** *** [CommentSerializer.get_replies] (apps/comments/serializers.py) *)

(** What the serializer makes of a comment, as far as the thread goes: the
    row and, under [replies], what it makes of the replies. *)
#[warnings="-register-all"]
Inductive rendered :=
| Rendered (row : Comment) (nested : list rendered).

Fixpoint rows_of (t : rendered) : list Comment :=
  match t with
  | Rendered row nested => row :: flat_map rows_of nested
  end.

(** [get_replies] serializes the active replies, and the serializer calls
    [get_replies] on each of them; [fuel] bounds the nesting of the calls.
    When [obj.replies.exists()] fails the filtered list is empty as
    well. *)
Fixpoint get_replies (fuel : nat) (cs : list Comment) (obj : Comment)
  : option (list rendered) :=
  match fuel with
  | O => None
  | S k =>
      mapM (fun r => option_map (Rendered r) (get_replies k cs r))
           (order_by_created_at (List.filter is_active (replies cs (pk obj))))
  end.

(** [c] is reached from [obj] going down through active replies only *)
Inductive shown_under (cs : list Comment) (obj : Comment) : Comment -> Prop :=
| shown_reply c :
    In c cs -> is_active c = true -> parent c = Some (pk obj) ->
    shown_under cs obj c
| shown_nested r c :
    In r cs -> is_active r = true -> parent r = Some (pk obj) ->
    shown_under cs r c ->
    shown_under cs obj c.

Lemma is_reply_to_parent p c : is_reply_to p c = true <-> parent c = Some p.
Proof.
  unfold is_reply_to. destruct (parent c) as [q|].
  - rewrite Nat.eqb_eq. split; [intros ->; reflexivity|intros H; injection H; auto].
  - split; discriminate.
Qed.

Lemma in_active_replies cs obj r :
  In r (order_by_created_at (List.filter is_active (replies cs (pk obj))))
  <-> In r cs /\ is_active r = true /\ parent r = Some (pk obj).
Proof.
  rewrite in_order_by_created_at. unfold replies. rewrite !filter_In, is_reply_to_parent.
  tauto.
Qed.

Lemma Forall2_In_r {A B} (P : A -> B -> Prop) l k y :
  Forall2 P l k -> In y k -> exists x, In x l /\ P x y.
Proof.
  induction 1 as [|x y' l k Hxy _ IH]; intros Hin; [destruct Hin|].
  destruct Hin as [->|Hin]; [exists x; split; [left; reflexivity|exact Hxy]|].
  destruct (IH Hin) as (x' & Hx' & HP). exists x'. split; [right; exact Hx'|exact HP].
Qed.

Lemma Forall2_In_l {A B} (P : A -> B -> Prop) l k x :
  Forall2 P l k -> In x l -> exists y, In y k /\ P x y.
Proof.
  induction 1 as [|x' y l k Hxy _ IH]; intros Hin; [destruct Hin|].
  destruct Hin as [->|Hin]; [exists y; split; [left; reflexivity|exact Hxy]|].
  destruct (IH Hin) as (y' & Hy' & HP). exists y'. split; [right; exact Hy'|exact HP].
Qed.

Lemma get_replies_shown cs fuel :
  forall obj tree,
    get_replies fuel cs obj = Some tree ->
    forall c, In c (flat_map rows_of tree) <-> shown_under cs obj c.
Proof.
  induction fuel as [|k IH]; intros obj tree Htree c; [discriminate|].
  cbn [get_replies] in Htree. apply mapM_Some in Htree.
  rewrite in_flat_map. split.
  - intros (t & Ht & Hc).
    destruct (Forall2_In_r _ _ _ _ Htree Ht) as (r & Hr & Hrt).
    apply in_active_replies in Hr as (Hr & Hact & Hpar).
    destruct (get_replies k cs r) as [nested|] eqn:Hnested; [|discriminate].
    cbn in Hrt. injection Hrt as <-. cbn [rows_of] in Hc.
    destruct Hc as [<-|Hc]; [apply shown_reply; assumption|].
    apply (shown_nested cs obj r); try assumption.
    apply (IH r nested Hnested), Hc.
  - intros Hshown. destruct Hshown as [c Hc Hact Hpar|r c Hr Hact Hpar Hshown].
    + destruct (Forall2_In_l _ _ _ c Htree) as (t & Ht & Hct).
      { apply in_active_replies. auto. }
      destruct (get_replies k cs c) as [nested|]; [|discriminate].
      cbn in Hct. injection Hct as <-. exists (Rendered c nested).
      split; [exact Ht|]. left. reflexivity.
    + destruct (Forall2_In_l _ _ _ r Htree) as (t & Ht & Hrt).
      { apply in_active_replies. auto. }
      destruct (get_replies k cs r) as [nested|] eqn:Hnested; [|discriminate].
      cbn in Hrt. injection Hrt as <-. exists (Rendered r nested).
      split; [exact Ht|]. right. apply (IH r nested Hnested), Hshown.
Qed.

Lemma get_replies_ends cs fuel :
  wf_rows cs ->
  forall obj, In obj cs -> (length cs - pk obj < fuel)%nat ->
              is_Some (get_replies fuel cs obj).
Proof.
  intros Hwf. induction fuel as [|k IH]; intros obj Hobj Hfuel; [lia|].
  cbn [get_replies]. apply mapM_is_Some, Forall_forall. intros r Hr.
  apply list_elem_of_In, in_active_replies in Hr as (Hr & _ & Hpar).
  pose proof (proj2 Hwf r _ Hr Hpar) as Hparent.
  pose proof (wf_rows_pk_range cs r Hwf Hr) as Hrange.
  cbn. destruct (IH r Hr ltac:(lia)) as [nested ->]. cbn. eauto.
Qed.

Lemma shown_under_parent cs :
  wf_rows cs ->
  forall obj c, shown_under cs obj c -> In obj cs ->
                forall p, In p cs -> parent c = Some (pk p) ->
                          p = obj \/ is_active p = true.
Proof.
  intros Hwf obj c Hshown.
  induction Hshown as [obj c Hc Hact Hpar|obj r c Hr Hact Hpar Hshown IH];
    intros Hobj p Hp Hcp.
  - left. rewrite Hpar in Hcp. injection Hcp as Hpk.
    symmetry. apply (wf_rows_pk_unique cs); assumption.
  - destruct (IH Hr p Hp Hcp) as [->|Hp']; right; assumption.
Qed.

(** X22.  The nested [replies] of a serialized comment hold exactly the
    comments that are reached from it going down through active replies:
    every comment in them is active, and so is its parent unless the
    parent is the serialized comment itself.  An active comment whose
    parent is hidden is in the [replies] of no comment.  In a state that
    satisfies the invariant of the store the nesting ends. *)
Theorem nested_replies_follow_active_chain :
  forall db obj,
    thread_inv db -> In obj (comments db) ->
    exists tree,
      get_replies (length (comments db)) (comments db) obj = Some tree
      /\ (forall c, In c (flat_map rows_of tree) <-> shown_under (comments db) obj c)
      /\ (forall c p, In c (flat_map rows_of tree) ->
                      In p (comments db) -> parent c = Some (pk p) ->
                      p = obj \/ is_active p = true).
Proof.
  intros db obj (Hwf & _ & _) Hobj.
  pose proof (wf_rows_pk_range _ _ Hwf Hobj) as Hrange.
  destruct (get_replies_ends (comments db) (length (comments db)) Hwf obj Hobj ltac:(lia))
    as [tree Htree].
  exists tree. split; [exact Htree|].
  pose proof (get_replies_shown _ _ _ _ Htree) as Hshown.
  split; [exact Hshown|].
  intros c p Hc Hp Hcp. apply Hshown in Hc.
  apply (shown_under_parent _ Hwf obj c Hc Hobj p Hp Hcp).
Qed.

(** comment 1 of [orphan_db]: its one reply is hidden, and under the
    hidden reply stands the active comment 3 *)
Definition orphan_root : Comment :=
  mkComment 1 "Al" "al@example.org" "This is a great article, thanks!"
    None 1 (Some "10.0.0.1") true false None None 0 1.

Lemma nested_replies_follow_active_chain_witness :
  exists tree,
    get_replies (length (comments orphan_db)) (comments orphan_db) orphan_root = Some tree
    /\ (forall c, In c (flat_map rows_of tree)
                  <-> shown_under (comments orphan_db) orphan_root c)
    /\ (forall c p, In c (flat_map rows_of tree) ->
                    In p (comments orphan_db) -> parent c = Some (pk p) ->
                    p = orphan_root \/ is_active p = true).
Proof.
  apply (nested_replies_follow_active_chain orphan_db orphan_root).
  - apply thread_inv_run, thread_inv_run, thread_inv_empty.
  - vm_compute. left. reflexivity.
Defined.

(** comment 3 is active, the [replies] of comment 1 are empty, and
    comment 1 says that it has one reply *)
Example nested_replies_ex :
  get_replies (length (comments orphan_db)) (comments orphan_db) orphan_root = Some []
  /\ option_map is_active (get_comment (comments orphan_db) 3) = Some true
  /\ option_map replies_count (get_comment (comments orphan_db) 1) = Some 1%nat.
Proof. vm_compute. repeat split. Qed.

End Store.

(** ** The comments app (comments/): rate limit of creation, like toggle *)

Module Legacy.

Local Open Scope Z_scope.

(** *** Tables (comments/models.py) and the cache *)

Record Comment := mkComment {
  pk : nat;
  author : string;
  email : string;
  content : string;
  created_at : Z;
  is_active : bool;
  ip_address : option string
}.

Record CommentLike := mkLike {
  like_created_at : Z;
  like_is_active : bool
}.

(** [comment] and [ip_address] are unique together, so the likes are a map
    from that pair.  A cache entry holds a value and the time at which it
    expires, in seconds. *)
Record state := mkState {
  comments : list Comment;
  comment_seq : nat;
  likes : gmap (nat * string) CommentLike;
  cache : gmap string (nat * Z)
}.

Definition empty_state : state := mkState [] 0 ∅ ∅.

(** [cache.get(key, default)]; an entry is alive until its expiry time *)
Definition cache_get (c : gmap string (nat * Z)) (now : Z) (key : string)
                     (default : nat) : nat :=
  match c !! key with
  | Some (value, expires) => if now <? expires then value else default
  | None => default
  end.

(** [cache.set(key, value, timeout)] *)
Definition cache_set (c : gmap string (nat * Z)) (now : Z) (key : string)
                     (value : nat) (timeout : Z) : gmap string (nat * Z) :=
  <[key := (value, now + timeout)]> c.

(** an IP address inside an f-string *)
Definition format_ip (ip : option string) : string :=
  match ip with
  | Some s => s
  | None => "None"
  end.

Definition rate_limit_key (ip : option string) : string :=
  "comment_rate_limit_" +:+ format_ip ip.

(** *** [CommentListCreateView.perform_create] (comments/views.py) *)

(** the fields of a submission that has passed the serializer *)
Record validated_data := mkData {
  data_author : string;
  data_email : string;
  data_content : string
}.

(** [Raised]: the [raise] of the rate limit.  It names
    [serializers.ValidationError] with [serializers] bound to the module
    [analytics.serializers]; whatever exception that gives, it leaves
    [perform_create] before [serializer.save()]. *)
Inductive outcome :=
| Saved (c : Comment)
| Raised.

Definition is_saved (o : outcome) : bool :=
  match o with
  | Saved _ => true
  | Raised => false
  end.

Definition perform_create (now : Z) (m : Http.meta) (d : validated_data)
                          (st : state) : outcome * state :=
  let ip_address := Http.get_client_ip m in
  let cache_key := rate_limit_key ip_address in
  let current_count := cache_get (cache st) now cache_key 0 in
  if (5 <=? current_count)%nat then (Raised, st)
  else
    (* serializer.save() *)
    let comment :=
      mkComment (S (comment_seq st)) (data_author d) (data_email d)
        (data_content d) now true ip_address in
    (Saved comment,
     mkState (comments st ++ [comment]) (S (comment_seq st)) (likes st)
       (cache_set (cache st) now cache_key (current_count + 1) 3600)).

(** submissions one after the other, each at its own time *)
Fixpoint submit_all (reqs : list (Z * Http.meta * validated_data)) (st : state)
  : list outcome * state :=
  match reqs with
  | [] => ([], st)
  | (now, m, d) :: rest =>
      let '(o, st1) := perform_create now m d st in
      let '(os, st2) := submit_all rest st1 in
      (o :: os, st2)
  end.

(** *** [toggle_comment_like] (comments/views.py) *)

Inductive response :=
| Toggled (liked : bool) (likes_count : nat)
| NotFound
| ServerError.

(** the [likes_count] property of [Comment] *)
Definition likes_count (ls : gmap (nat * string) CommentLike) (c : nat) : nat :=
  size (filter (fun kv : (nat * string) * CommentLike =>
                  kv.1.1 = c /\ like_is_active kv.2 = true) ls).

(** [get_object_or_404(Comment, id=i, is_active=True)] *)
Definition get_active_comment (cs : list Comment) (i : nat) : option Comment :=
  List.find (fun c => (pk c =? i)%nat && is_active c) cs.

Definition flip (l : CommentLike) : CommentLike :=
  mkLike (like_created_at l) (negb (like_is_active l)).

(** A request without an address cannot store a like: the column is not
    nullable. *)
Definition toggle_comment_like (now : Z) (comment_id : nat) (m : Http.meta)
                               (st : state) : response * state :=
  match get_active_comment (comments st) comment_id with
  | None => (NotFound, st)
  | Some _ =>
      match Http.get_client_ip m with
      | None => (ServerError, st)
      | Some ip_address =>
          (* get_or_create *)
          let '(like, ls) :=
            match likes st !! (comment_id, ip_address) with
            | Some like =>
                (* not created: toggle the like *)
                let like := flip like in
                (like, <[(comment_id, ip_address) := like]> (likes st))
            | None =>
                let like := mkLike now true in
                (like, <[(comment_id, ip_address) := like]> (likes st))
            end in
          (Toggled (like_is_active like) (likes_count ls comment_id),
           mkState (comments st) (comment_seq st) ls (cache st))
      end
  end.

(** whether the address has an active like on the comment *)
Definition liked (st : state) (c : nat) (ip : string) : bool :=
  match likes st !! (c, ip) with
  | Some l => like_is_active l
  | None => false
  end.

(** *** The rate limit of creation *)

Definition time_of (r : Z * Http.meta * validated_data) : Z := r.1.1.
Definition meta_of (r : Z * Http.meta * validated_data) : Http.meta := r.1.2.

(** the counter of [key] stands at [n] and stays alive over the times
    [later] *)
Definition counted (st : state) (key : string) (n : nat) (later : list Z) : Prop :=
  (n = 0%nat /\ cache st !! key = None)
  \/ exists expires, cache st !! key = Some (n, expires)
                     /\ Forall (fun t => t < expires) later.

Lemma cache_get_counted st key n t later :
  counted st key n (t :: later) -> cache_get (cache st) t key 0 = n.
Proof.
  unfold cache_get. intros [[-> ->]|(e & -> & Hlive)]; [reflexivity|].
  apply Forall_cons in Hlive as [Ht _]. apply Z.ltb_lt in Ht. rewrite Ht. reflexivity.
Qed.

Lemma counted_tail st key n t later :
  counted st key n (t :: later) -> counted st key n later.
Proof.
  intros [H|(e & Hget & Hlive)]; [left; exact H|right].
  exists e. split; [exact Hget|]. apply Forall_cons in Hlive as [_ H]. exact H.
Qed.

(** the [i]-th submission of a run that starts with the counter at [n] is
    saved exactly when [n + i < 5] *)
Lemma submit_all_counts ip t0 reqs :
  forall st n,
    counted st (rate_limit_key ip) n (List.map time_of reqs) ->
    Forall (fun r => Http.get_client_ip (meta_of r) = ip
                     /\ t0 <= time_of r < t0 + 3600) reqs ->
    List.map is_saved (fst (submit_all reqs st))
    = List.map (fun i => (n + i <? 5)%nat) (seq 0 (length reqs)).
Proof.
  induction reqs as [|[[now m] d] rest IH]; intros st n Hcount Hreqs; [reflexivity|].
  apply Forall_cons in Hreqs as [[Hip Hwin] Hrest].
  cbn [time_of meta_of fst snd] in Hip, Hwin.
  cbn [submit_all List.map length seq].
  pose proof (cache_get_counted _ _ _ _ _ Hcount) as Hget.
  change (time_of (now, m, d)) with now in Hget.
  unfold perform_create. rewrite Hip, Hget.
  rewrite <- seq_shift, List.map_map.
  destruct (5 <=? n)%nat eqn:Hfull.
  - specialize (IH st n (counted_tail _ _ _ _ _ Hcount) Hrest).
    destruct (submit_all rest st) as [os st2]. cbn [fst List.map is_saved] in *.
    apply Nat.leb_le in Hfull. f_equal.
    + rewrite Nat.add_0_r. symmetry. apply Nat.ltb_ge. exact Hfull.
    + rewrite IH. apply List.map_ext. intros i.
      destruct (n + i <? 5)%nat eqn:E1; [apply Nat.ltb_lt in E1; lia|].
      symmetry. apply Nat.ltb_ge. lia.
  - apply Nat.leb_gt in Hfull.
    match goal with
    | |- context [submit_all rest ?st1] =>
        specialize (IH st1 (n + 1)%nat); destruct (submit_all rest st1) as [os st2]
    end.
    cbn [fst List.map is_saved] in *. f_equal.
    + rewrite Nat.add_0_r. symmetry. apply Nat.ltb_lt. exact Hfull.
    + rewrite IH.
      * apply List.map_ext. intros i. f_equal. lia.
      * right. exists (now + 3600). split.
        -- cbn [cache]. unfold cache_set. apply lookup_insert_eq.
        -- apply Forall_forall. intros t Ht. apply list_elem_of_In in Ht.
           apply in_map_iff in Ht as (r & <- & Hr).
           rewrite Forall_forall in Hrest. destruct (Hrest r) as [_ H].
           { apply list_elem_of_In, Hr. }
           lia.
      * exact Hrest.
Qed.

(** C8, as the code has it.  The rate limit of [perform_create] lets 5
    creations per address through per hour: of 11 submissions from one
    address, all within one hour, and with no counter for the address in
    the cache before, the first 5 are saved and the 6th to the 11th are
    refused by the exception raised before the save. *)
Theorem create_rate_limit_five_per_hour :
  forall st ip t0 reqs,
    cache st !! rate_limit_key ip = None ->
    length reqs = 11%nat ->
    Forall (fun r => Http.get_client_ip (meta_of r) = ip
                     /\ t0 <= time_of r < t0 + 3600) reqs ->
    List.map is_saved (fst (submit_all reqs st))
    = [true; true; true; true; true; false; false; false; false; false; false].
Proof.
  intros st ip t0 reqs Hfresh Hlen Hreqs.
  rewrite (submit_all_counts ip t0 reqs st 0); [|left; auto|exact Hreqs].
  rewrite Hlen. reflexivity.
Qed.

(** eleven submissions from 10.0.0.1, one a second *)
Definition eleven_submissions : list (Z * Http.meta * validated_data) :=
  List.map (fun t => (t, Http.mkMeta None (Some "10.0.0.1"),
                      mkData "Al" "al@example.org" "This is a great article, thanks!"))
           [0; 1; 2; 3; 4; 5; 6; 7; 8; 9; 10].

Lemma create_rate_limit_five_per_hour_witness :
  List.map is_saved (fst (submit_all eleven_submissions empty_state))
  = [true; true; true; true; true; false; false; false; false; false; false].
Proof.
  apply (create_rate_limit_five_per_hour empty_state (Some "10.0.0.1") 0).
  - reflexivity.
  - reflexivity.
  - unfold eleven_submissions. cbn [List.map].
    repeat (apply Forall_cons; split; [split; [reflexivity|cbn; lia]|]).
    apply Forall_nil. exact I.
Defined.

(** C8 as stated fails: the first 10 of the eleven submissions are not all
    let through, the 6th is refused already, and only 5 comments are
    stored. *)
Lemma create_rate_limit_counterexample :
  List.map is_saved (fst (submit_all eleven_submissions empty_state))
  <> [true; true; true; true; true; true; true; true; true; true; false]
  /\ nth 5 (List.map is_saved (fst (submit_all eleven_submissions empty_state))) true
     = false
  /\ length (comments (snd (submit_all eleven_submissions empty_state))) = 5%nat.
Proof.
  split; [|split]; [|reflexivity|reflexivity].
  intros H. vm_compute in H. discriminate H.
Qed.

(** *** Toggling a like twice *)

Lemma flip_flip l : flip (flip l) = l.
Proof. destruct l as [t a]. unfold flip. cbn. rewrite negb_involutive. reflexivity. Qed.

(** an inactive like under a key that was free does not count *)
Lemma likes_count_insert_inactive (ls : gmap (nat * string) CommentLike) k l c :
  ls !! k = None -> like_is_active l = false ->
  likes_count (<[k := l]> ls) c = likes_count ls c.
Proof.
  intros Hfree Hoff. unfold likes_count.
  rewrite map_filter_insert_not'; [reflexivity| |].
  - cbn. intros [_ H]. congruence.
  - intros y Hy. congruence.
Qed.

(** two toggles either restore the state or, when the address had no row
    for the comment, leave an inactive one *)
Lemma toggle_twice_cases st now1 now2 comment_id m :
  let st2 := snd (toggle_comment_like now2 comment_id m
                    (snd (toggle_comment_like now1 comment_id m st))) in
  st2 = st
  \/ exists ip,
       Http.get_client_ip m = Some ip
       /\ likes st !! (comment_id, ip) = None
       /\ st2 = mkState (comments st) (comment_seq st)
                  (<[(comment_id, ip) := mkLike now1 false]> (likes st)) (cache st).
Proof.
  cbv zeta. unfold toggle_comment_like at 2 4.
  destruct (get_active_comment (comments st) comment_id) as [row|] eqn:Hrow.
  2: { left. cbn [snd]. unfold toggle_comment_like. rewrite Hrow. reflexivity. }
  destruct (Http.get_client_ip m) as [ip|] eqn:Hip.
  2: { left. cbn [snd]. unfold toggle_comment_like. rewrite Hrow, Hip. reflexivity. }
  destruct (likes st !! (comment_id, ip)) as [l|] eqn:Hlike.
  - (* the row was there: flipped twice *)
    left. cbn [snd]. unfold toggle_comment_like. cbn [comments likes comment_seq cache].
    rewrite Hrow, Hip, lookup_insert_eq. cbn [snd].
    rewrite insert_insert_eq, flip_flip, (insert_id _ _ _ Hlike).
    destruct st; reflexivity.
  - (* no row: created active, then flipped to inactive *)
    right. exists ip. split; [reflexivity|]. split; [exact Hlike|].
    cbn [snd]. unfold toggle_comment_like. cbn [comments likes comment_seq cache].
    rewrite Hrow, Hip, lookup_insert_eq. cbn [snd].
    rewrite insert_insert_eq. reflexivity.
Qed.

(** C9.  Two toggles in a row by the same request on the same comment
    restore what can be observed of the likes: for every comment its
    [likes_count], and for every comment and address whether the address
    has an active like; the comments are untouched.  When the address
    already had a row for the comment, the two toggles restore the state
    itself; when it had none, they leave an inactive row. *)
Theorem toggle_twice_restores :
  forall st now1 now2 comment_id m,
    let st2 := snd (toggle_comment_like now2 comment_id m
                      (snd (toggle_comment_like now1 comment_id m st))) in
    (forall c, likes_count (likes st2) c = likes_count (likes st) c)
    /\ (forall c ip, liked st2 c ip = liked st c ip)
    /\ comments st2 = comments st
    /\ (forall ip l, Http.get_client_ip m = Some ip ->
                     likes st !! (comment_id, ip) = Some l -> st2 = st).
Proof.
  intros st now1 now2 cid m. cbv zeta.
  destruct (toggle_twice_cases st now1 now2 cid m)
    as [Hsame|(ip & Hip & Hfree & Hst2)].
  - rewrite Hsame. repeat split; reflexivity.
  - rewrite Hst2. cbn [likes comments]. split; [|split; [|split]].
    + intros c. apply likes_count_insert_inactive; [exact Hfree|reflexivity].
    + intros c ip'. unfold liked. cbn [likes]. rewrite lookup_insert. case_decide.
      * injection H as <- <-. rewrite Hfree. reflexivity.
      * reflexivity.
    + reflexivity.
    + intros ip' l Hip' Hl. congruence.
Qed.

Example toggle_ex :
  let st0 := snd (perform_create 0 (Http.mkMeta None (Some "10.0.0.1"))
                    (mkData "Al" "al@example.org" "This is a great article, thanks!")
                    empty_state) in
  let m := Http.mkMeta (Some "10.0.0.7, 10.0.0.1") None in
  let '(r1, st1) := toggle_comment_like 1 1 m st0 in
  let '(r2, st2) := toggle_comment_like 2 1 m st1 in
  let '(r3, st3) := toggle_comment_like 3 1 m st2 in
  r1 = Toggled true 1 /\ r2 = Toggled false 0 /\ r3 = Toggled true 1
  /\ liked st2 1 "10.0.0.7" = false /\ st3 = st1.
Proof. vm_compute. repeat split. Qed.

(** *** What the rate limit is keyed on, and how its hour runs *)

Definition key_of (r : Z * Http.meta * validated_data) : string :=
  rate_limit_key (Http.get_client_ip (meta_of r)).

Lemma perform_create_free_key now m d st :
  cache st !! rate_limit_key (Http.get_client_ip m) = None ->
  exists c,
    perform_create now m d st
    = (Saved c,
       mkState (comments st ++ [c]) (S (comment_seq st)) (likes st)
         (<[rate_limit_key (Http.get_client_ip m) := (1%nat, now + 3600)]> (cache st))).
Proof.
  intros Hfree. unfold perform_create, cache_get, cache_set. rewrite Hfree.
  cbn [Nat.leb Nat.add]. eexists. reflexivity.
Qed.

(** X14.  The limit is kept per key, and the key is the first item of the
    X-Forwarded-For header when the request has one: submissions whose
    keys differ from each other and have no counter yet are all saved,
    however many they are and whenever they come. *)
Theorem distinct_keys_never_limited :
  forall reqs st,
    NoDup (List.map key_of reqs) ->
    Forall (fun r => cache st !! key_of r = None) reqs ->
    List.map is_saved (fst (submit_all reqs st)) = repeat true (length reqs)
    /\ length (comments (snd (submit_all reqs st)))
       = (length (comments st) + length reqs)%nat.
Proof.
  induction reqs as [|[[now m] d] rest IH]; intros st Hnd Hfree.
  - cbn. split; [reflexivity|lia].
  - cbn [List.map] in Hnd. apply NoDup_cons in Hnd as [Hnew Hnd].
    apply Forall_cons in Hfree as [Hhere Hfree].
    unfold key_of in Hhere. cbn [meta_of fst snd] in Hhere.
    destruct (perform_create_free_key now m d st Hhere) as (c & Hc).
    cbn [submit_all]. rewrite Hc.
    match goal with
    | |- context [submit_all rest ?st1] =>
        specialize (IH st1 Hnd); destruct (submit_all rest st1) as [os st2] eqn:Hrest
    end.
    cbn [fst snd] in *. destruct IH as [IHs IHl].
    + apply Forall_forall. intros r Hr. cbn [cache].
      rewrite lookup_insert_ne.
      * rewrite Forall_forall in Hfree. apply Hfree, Hr.
      * intros Heq. apply Hnew. apply list_elem_of_In, in_map_iff.
        exists r. split; [|apply list_elem_of_In, Hr].
        rewrite <- Heq. reflexivity.
    + cbn [List.map is_saved length repeat comments] in *. split.
      * f_equal. exact IHs.
      * rewrite IHl, length_app. cbn. lia.
Qed.

(** seven submissions within seven seconds over one connection, each with
    its own X-Forwarded-For header *)
Definition forwarded_submissions : list (Z * Http.meta * validated_data) :=
  List.map (fun '(t, x) => (t, Http.mkMeta (Some x) (Some "10.0.0.1"),
                            mkData "Al" "al@example.org" "This is a great article, thanks!"))
           [(0, "a1"); (1, "a2"); (2, "a3"); (3, "a4"); (4, "a5, 10.0.0.1"); (5, "a6");
            (6, "a7")].

Lemma distinct_keys_never_limited_witness :
  List.map is_saved (fst (submit_all forwarded_submissions empty_state))
  = repeat true (length forwarded_submissions)
  /\ length (comments (snd (submit_all forwarded_submissions empty_state)))
     = (length (comments empty_state) + length forwarded_submissions)%nat.
Proof.
  apply (distinct_keys_never_limited forwarded_submissions empty_state).
  - refine (bool_decide_unpack _ _). vm_compute. exact I.
  - unfold forwarded_submissions. cbn [List.map].
    repeat (apply Forall_cons; split; [reflexivity|]).
    apply Forall_nil. exact I.
Defined.

(** each time is at most an hour, less a second, after the one before *)
Fixpoint paced (prev : Z) (times : list Z) : Prop :=
  match times with
  | [] => True
  | t :: rest => prev <= t < prev + 3600 /\ paced t rest
  end.

Lemma paced_counts ip reqs :
  forall st n prev,
    (n = 0%nat /\ cache st !! rate_limit_key ip = None)
    \/ cache st !! rate_limit_key ip = Some (n, prev + 3600) ->
    Forall (fun r => Http.get_client_ip (meta_of r) = ip) reqs ->
    paced prev (List.map time_of reqs) ->
    (n + length reqs <= 6)%nat ->
    List.map is_saved (fst (submit_all reqs st))
    = List.map (fun i => (n + i <? 5)%nat) (seq 0 (length reqs)).
Proof.
  induction reqs as [|[[now m] d] rest IH]; intros st n prev Hcount Hip Hpaced Hlen;
    [reflexivity|].
  apply Forall_cons in Hip as [Hip Hrest]. cbn [meta_of fst snd] in Hip.
  cbn [List.map paced] in Hpaced. destruct Hpaced as [Hnow Hpaced].
  change (time_of (now, m, d)) with now in Hnow, Hpaced.
  cbn [length] in Hlen.
  assert (Hget : cache_get (cache st) now (rate_limit_key ip) 0 = n).
  { unfold cache_get. destruct Hcount as [[-> ->]| ->]; [reflexivity|].
    destruct (now <? prev + 3600) eqn:E; [reflexivity|]. apply Z.ltb_ge in E. lia. }
  cbn [submit_all List.map length seq]. unfold perform_create. rewrite Hip, Hget.
  rewrite <- seq_shift, List.map_map.
  destruct (5 <=? n)%nat eqn:Hfull.
  - apply Nat.leb_le in Hfull. destruct rest as [|r rest]; [|cbn [length] in Hlen; lia].
    cbn [submit_all fst List.map is_saved]. f_equal. symmetry. apply Nat.ltb_ge. lia.
  - apply Nat.leb_gt in Hfull.
    match goal with
    | |- context [submit_all rest ?st1] =>
        specialize (IH st1 (n + 1)%nat now); destruct (submit_all rest st1) as [os st2]
    end.
    cbn [fst List.map is_saved] in *. f_equal.
    + rewrite Nat.add_0_r. symmetry. apply Nat.ltb_lt. exact Hfull.
    + rewrite IH.
      * apply List.map_ext. intros i. f_equal. lia.
      * right. cbn [cache]. unfold cache_set. apply lookup_insert_eq.
      * exact Hrest.
      * exact Hpaced.
      * lia.
Qed.

(** X15.  The hour of the limit is not a window of the clock: every saved
    submission starts it again.  Of six submissions from one address, each
    less than an hour after the one before, the sixth is refused, also
    when the six are spread over almost five hours. *)
Theorem slow_submissions_still_limited :
  forall st ip t0 reqs,
    cache st !! rate_limit_key ip = None ->
    length reqs = 6%nat ->
    Forall (fun r => Http.get_client_ip (meta_of r) = ip) reqs ->
    paced t0 (List.map time_of reqs) ->
    List.map is_saved (fst (submit_all reqs st))
    = [true; true; true; true; true; false].
Proof.
  intros st ip t0 reqs Hfree Hlen Hip Hpaced.
  rewrite (paced_counts ip reqs st 0 t0); [|left; auto|exact Hip|exact Hpaced|lia].
  rewrite Hlen. reflexivity.
Qed.

(** six submissions from 10.0.0.1, one every 59 minutes *)
Definition slow_submissions : list (Z * Http.meta * validated_data) :=
  List.map (fun t => (t, Http.mkMeta None (Some "10.0.0.1"),
                      mkData "Al" "al@example.org" "This is a great article, thanks!"))
           [0; 3540; 7080; 10620; 14160; 17700].

Lemma slow_submissions_still_limited_witness :
  List.map is_saved (fst (submit_all slow_submissions empty_state))
  = [true; true; true; true; true; false].
Proof.
  apply (slow_submissions_still_limited empty_state (Some "10.0.0.1") 0).
  - reflexivity.
  - reflexivity.
  - unfold slow_submissions. cbn [List.map].
    repeat (apply Forall_cons; split; [reflexivity|]).
    apply Forall_nil. exact I.
  - cbn. lia.
Defined.

Lemma refused_all ip expires n attempts :
  forall st,
    cache st !! rate_limit_key ip = Some (n, expires) -> (5 <= n)%nat ->
    Forall (fun r => Http.get_client_ip (meta_of r) = ip /\ time_of r < expires)
           attempts ->
    submit_all attempts st = (List.map (fun _ => Raised) attempts, st).
Proof.
  intros st Hget Hn. induction attempts as [|[[now m] d] rest IH]; intros Hall;
    [reflexivity|].
  apply Forall_cons in Hall as [[Hip Hnow] Hrest]. cbn [meta_of time_of fst snd] in Hip, Hnow.
  cbn [submit_all List.map]. unfold perform_create, cache_get. rewrite Hip, Hget.
  apply Z.ltb_lt in Hnow. rewrite Hnow.
  apply Nat.leb_le in Hn. rewrite Hn. rewrite (IH Hrest). reflexivity.
Qed.

(** X16.  A refused submission neither stores a comment nor prolongs the
    refusal: whatever was tried while the counter of an address stood at 5
    or more, the store is as it was, and a submission from the address at
    or after the expiry of the counter is saved and starts the count again
    at 1. *)
Theorem refusals_do_not_prolong :
  forall st ip n expires attempts now m d,
    cache st !! rate_limit_key ip = Some (n, expires) -> (5 <= n)%nat ->
    Forall (fun r => Http.get_client_ip (meta_of r) = ip /\ time_of r < expires)
           attempts ->
    Http.get_client_ip m = ip -> expires <= now ->
    snd (submit_all attempts st) = st
    /\ Forall (fun o => is_saved o = false) (fst (submit_all attempts st))
    /\ exists c st1,
         perform_create now m d (snd (submit_all attempts st)) = (Saved c, st1)
         /\ comments st1 = (comments st ++ [c])%list
         /\ cache st1 !! rate_limit_key ip = Some (1%nat, now + 3600).
Proof.
  intros st ip n expires attempts now m d Hget Hn Hall Hip Hlate.
  rewrite (refused_all ip expires n attempts st Hget Hn Hall). cbn [fst snd].
  split; [reflexivity|]. split.
  - apply Forall_forall. intros o Ho. apply list_elem_of_In, in_map_iff in Ho.
    destruct Ho as (r & <- & _). reflexivity.
  - unfold perform_create, cache_get, cache_set. rewrite Hip, Hget.
    apply Z.ltb_ge in Hlate. rewrite Hlate. cbn [Nat.leb Nat.add].
    eexists. eexists. split; [reflexivity|]. cbn [comments cache].
    split; [reflexivity|]. apply lookup_insert_eq.
Qed.

(** the address of [eleven_submissions] tries three more times in the hour
    after its fifth comment, and once more at the end of that hour *)
Definition refused_attempts : list (Z * Http.meta * validated_data) :=
  List.map (fun t => (t, Http.mkMeta None (Some "10.0.0.1"),
                      mkData "Al" "al@example.org" "Let me in"))
           [100; 2000; 3603].

Lemma refusals_do_not_prolong_witness :
  snd (submit_all refused_attempts (snd (submit_all eleven_submissions empty_state)))
  = snd (submit_all eleven_submissions empty_state)
  /\ Forall (fun o => is_saved o = false)
       (fst (submit_all refused_attempts (snd (submit_all eleven_submissions empty_state))))
  /\ exists c st1,
       perform_create 3604 (Http.mkMeta None (Some "10.0.0.1"))
         (mkData "Al" "al@example.org" "Let me in")
         (snd (submit_all refused_attempts (snd (submit_all eleven_submissions empty_state))))
       = (Saved c, st1)
       /\ comments st1 = (comments (snd (submit_all eleven_submissions empty_state)) ++ [c])%list
       /\ cache st1 !! rate_limit_key (Some "10.0.0.1") = Some (1%nat, 3604 + 3600).
Proof.
  apply (refusals_do_not_prolong (snd (submit_all eleven_submissions empty_state))
           (Some "10.0.0.1") 5 3604 refused_attempts 3604).
  - reflexivity.
  - lia.
  - unfold refused_attempts. cbn [List.map].
    repeat (apply Forall_cons; split; [split; [reflexivity|cbn; lia]|]).
    apply Forall_nil. exact I.
  - reflexivity.
  - lia.
Defined.

(** *** What one toggle does to the counts *)

(** what a row, or its absence, adds to the count of its comment *)
Definition counts (l : option CommentLike) : nat :=
  match l with
  | Some l => if like_is_active l then 1 else 0
  | None => 0
  end.

Lemma likes_count_insert (ls : gmap (nat * string) CommentLike) c ip l :
  likes_count (<[(c, ip) := l]> ls) c
  = (counts (Some l) + likes_count (delete (c, ip) ls) c)%nat.
Proof.
  unfold likes_count, counts. rewrite <- insert_delete_eq.
  destruct (like_is_active l) eqn:E.
  - rewrite map_filter_insert_True; [|cbn; auto].
    rewrite map_size_insert_None; [reflexivity|].
    apply map_lookup_filter_None_2. left. apply lookup_delete_eq.
  - rewrite map_filter_insert_False; [|cbn; intros [_ H]; congruence].
    rewrite (delete_id (delete (c, ip) ls)); [reflexivity|apply lookup_delete_eq].
Qed.

Lemma likes_count_split (ls : gmap (nat * string) CommentLike) c ip :
  likes_count ls c = (counts (ls !! (c, ip)) + likes_count (delete (c, ip) ls) c)%nat.
Proof.
  destruct (ls !! (c, ip)) as [o|] eqn:E.
  - rewrite <- (insert_delete_id ls (c, ip) o E) at 1. rewrite likes_count_insert.
    rewrite (delete_id (delete (c, ip) ls)); [reflexivity|apply lookup_delete_eq].
  - rewrite (delete_id _ _ E). reflexivity.
Qed.

Lemma likes_count_insert_other (ls : gmap (nat * string) CommentLike) c ip l c' :
  c' <> c -> likes_count (<[(c, ip) := l]> ls) c' = likes_count ls c'.
Proof.
  intros Hne. unfold likes_count.
  rewrite map_filter_insert_False; [|cbn; intros [H _]; congruence].
  rewrite map_filter_delete, delete_id; [reflexivity|].
  apply map_lookup_filter_None_2. right. intros x _ [H _]. cbn in H. congruence.
Qed.

(** X17.  One toggle moves the count of the comment by exactly one, in the
    direction that the answer reports, and the count in the answer is the
    new one: up by one when the answer says liked, down by one when it
    says not liked.  The counts of the other comments stay. *)
Theorem toggle_moves_count_by_one :
  forall st now comment_id m b n st1,
    toggle_comment_like now comment_id m st = (Toggled b n, st1) ->
    n = likes_count (likes st1) comment_id
    /\ (if b then n = S (likes_count (likes st) comment_id)
        else S n = likes_count (likes st) comment_id)
    /\ (forall c, c <> comment_id -> likes_count (likes st1) c = likes_count (likes st) c)
    /\ exists ip, Http.get_client_ip m = Some ip
                  /\ liked st1 comment_id ip = b /\ liked st comment_id ip = negb b.
Proof.
  intros st now cid m b n st1. unfold toggle_comment_like.
  destruct (get_active_comment (comments st) cid) as [row|]; [|discriminate].
  destruct (Http.get_client_ip m) as [ip|]; [|discriminate].
  pose proof (likes_count_split (likes st) cid ip) as Hold.
  destruct (likes st !! (cid, ip)) as [l|] eqn:Hlike; intros H; injection H as <- <- <-;
    cbn [likes]; rewrite likes_count_insert; cbn [counts like_is_active flip] in *.
  - split; [reflexivity|]. split; [|split].
    + rewrite Hold. destruct (like_is_active l); cbn; reflexivity.
    + intros c Hc. apply likes_count_insert_other, Hc.
    + exists ip. split; [reflexivity|]. unfold liked. cbn [likes].
      rewrite lookup_insert_eq, Hlike. cbn. rewrite negb_involutive. split; reflexivity.
  - split; [reflexivity|]. split; [|split].
    + rewrite Hold. reflexivity.
    + intros c Hc. apply likes_count_insert_other, Hc.
    + exists ip. split; [reflexivity|]. unfold liked. cbn [likes].
      rewrite lookup_insert_eq, Hlike. split; reflexivity.
Qed.

(** one comment, liked from two addresses *)
Definition liked_twice : state :=
  snd (toggle_comment_like 2 1 (Http.mkMeta None (Some "10.0.0.2"))
         (snd (toggle_comment_like 1 1 (Http.mkMeta (Some "10.0.0.7, 10.0.0.1") None)
                 (snd (perform_create 0 (Http.mkMeta None (Some "10.0.0.1"))
                         (mkData "Al" "al@example.org" "This is a great article, thanks!")
                         empty_state))))).

Lemma toggle_moves_count_by_one_witness :
  1%nat = likes_count
            (likes (snd (toggle_comment_like 3 1 (Http.mkMeta None (Some "10.0.0.2"))
                           liked_twice))) 1
  /\ 2%nat = likes_count (likes liked_twice) 1
  /\ (forall c, c <> 1%nat ->
        likes_count
          (likes (snd (toggle_comment_like 3 1 (Http.mkMeta None (Some "10.0.0.2"))
                         liked_twice))) c
        = likes_count (likes liked_twice) c)
  /\ exists ip, Http.get_client_ip (Http.mkMeta None (Some "10.0.0.2")) = Some ip
                /\ liked (snd (toggle_comment_like 3 1 (Http.mkMeta None (Some "10.0.0.2"))
                                 liked_twice)) 1 ip = false
                /\ liked liked_twice 1 ip = negb false.
Proof.
  apply (toggle_moves_count_by_one liked_twice 3 1 (Http.mkMeta None (Some "10.0.0.2"))
           false 1).
  vm_compute. reflexivity.
Defined.

(** *** [CommentDetailView] with [perform_destroy] (comments/views.py) *)

(** [Denied]: the 401 or 403 of [IsAuthenticated], which [get_permissions]
    puts in place for PUT, PATCH and DELETE *)
Inductive destroy_response :=
| NoContent
| DestroyNotFound
| Denied.

(** [instance.is_active = False; instance.save()] *)
Definition deactivate (i : nat) (c : Comment) : Comment :=
  if (pk c =? i)%nat
  then mkComment (pk c) (author c) (email c) (content c) (created_at c) false
         (ip_address c)
  else c.

(** DELETE on the detail view: the permissions are checked first, the
    object is looked up in [Comment.objects.filter(is_active=True)] *)
Definition destroy (authenticated : bool) (comment_id : nat) (st : state)
  : destroy_response * state :=
  if negb authenticated then (Denied, st)
  else
    match get_active_comment (comments st) comment_id with
    | None => (DestroyNotFound, st)
    | Some instance =>
        (NoContent,
         mkState (List.map (deactivate (pk instance)) (comments st)) (comment_seq st)
           (likes st) (cache st))
    end.

Lemma get_active_comment_pk cs i c : get_active_comment cs i = Some c -> pk c = i.
Proof.
  unfold get_active_comment. intros H. apply find_some in H as [_ H].
  apply andb_true_iff in H as [H _]. apply Nat.eqb_eq, H.
Qed.

Lemma get_active_comment_deactivate cs i :
  get_active_comment (List.map (deactivate i) cs) i = None.
Proof.
  unfold get_active_comment. induction cs as [|c cs IH]; [reflexivity|].
  cbn [List.map List.find]. unfold deactivate at 1 2.
  destruct (pk c =? i)%nat eqn:E.
  - cbn [pk is_active]. rewrite E. cbn. exact IH.
  - rewrite E. cbn. exact IH.
Qed.

(** X18.  Deleting is hiding.  After a DELETE that is answered 204 the
    table has as many rows as before and the like rows are all there, but
    the comment is gone for the endpoints: a toggle of its like and a
    second DELETE are both answered 404 and change nothing. *)
Theorem deleted_comment_is_hidden :
  forall st comment_id st1,
    destroy true comment_id st = (NoContent, st1) ->
    length (comments st1) = length (comments st)
    /\ List.map pk (comments st1) = List.map pk (comments st)
    /\ likes st1 = likes st
    /\ (forall now m, toggle_comment_like now comment_id m st1 = (NotFound, st1))
    /\ destroy true comment_id st1 = (DestroyNotFound, st1).
Proof.
  intros st i st1. unfold destroy. cbn [negb].
  destruct (get_active_comment (comments st) i) as [row|] eqn:Hrow; [|discriminate].
  apply get_active_comment_pk in Hrow. rewrite Hrow.
  intros H. injection H as <-. cbn [comments likes].
  split; [apply length_map|]. split; [|split; [reflexivity|split]].
  - rewrite List.map_map. apply List.map_ext. intros c. unfold deactivate.
    destruct (pk c =? i)%nat; reflexivity.
  - intros now m. unfold toggle_comment_like. cbn [comments].
    rewrite get_active_comment_deactivate. reflexivity.
  - cbn [comments]. rewrite get_active_comment_deactivate. reflexivity.
Qed.

Lemma deleted_comment_is_hidden_witness :
  length (comments (snd (destroy true 1 liked_twice))) = length (comments liked_twice)
  /\ List.map pk (comments (snd (destroy true 1 liked_twice)))
     = List.map pk (comments liked_twice)
  /\ likes (snd (destroy true 1 liked_twice)) = likes liked_twice
  /\ (forall now m, toggle_comment_like now 1 m (snd (destroy true 1 liked_twice))
                    = (NotFound, snd (destroy true 1 liked_twice)))
  /\ destroy true 1 (snd (destroy true 1 liked_twice))
     = (DestroyNotFound, snd (destroy true 1 liked_twice)).
Proof.
  apply (deleted_comment_is_hidden liked_twice 1). reflexivity.
Defined.

End Legacy.
